(** * Book/gen_contents.py: the chapter generator

    A shallow embedding of the script that turns the numbered source
    files of every chapter directory into [chapter<N>.tex], and the
    properties of its output.

    Conventions of the model.
    - A Python [str] is a [string]; a character is its code point, so
      the model covers names and texts over the code points 0..255.
    - A Python [int] is a [Z].
    - An exception is an explicit outcome ([exn]); every function that
      can raise returns what it had written up to that point.
    - [fout] is the list of the [fout.write] calls made so far, one
      [write] per call; [tex] renders them to the text of the file.
    - A source file is what [open(..., 'r')] and [read()] make of it:
      [open] raises, or the bytes do not decode in the encoding of the
      run, or they decode to a [str], in which [read()] then turns each
      CR LF and each other CR into LF.  The bytes and the encoding
      (that of the locale) are not modelled.
    - An output file is the text written to it; where the line
      separator of the system is LF these are its characters. *)

From Stdlib Require Import ZArith Ascii String List Lia.
From stdpp Require Import gmap strings list sorting pretty.

Local Open Scope string_scope.
Local Open Scope list_scope.
Local Open Scope Z_scope.

(** ** Python built-ins used by the script *)

(** The one-character string ["\n"]. *)
Definition nl : string := String (ascii_of_nat 10) "".

Module Py.

Definition ord (c : ascii) : Z := Z.of_N (N_of_ascii c).

(** [\d] on a [str] pattern: the decimal digits (below code point 256
    these are ['0'..'9'] only). *)
Definition is_decimal (c : ascii) : bool :=
  (48 <=? ord c) && (ord c <=? 57).

(** [\s] on a [str] pattern: the characters for which [str.isspace]
    holds; below code point 256 these are 9..13, 28..32, 133, 160. *)
Definition is_space (c : ascii) : bool :=
  ((9 <=? ord c) && (ord c <=? 13)) || ((28 <=? ord c) && (ord c <=? 32))
  || (ord c =? 133) || (ord c =? 160).

(** [s.replace(old, new)] for one-character [old] and [new]. *)
Fixpoint replace (old new : ascii) (s : string) : string :=
  match s with
  | "" => ""
  | String c s' =>
      String (if Ascii.eqb c old then new else c) (replace old new s')
  end.

(** [int(s)] for a string of decimal digits. *)
Fixpoint int_acc (acc : Z) (s : string) : Z :=
  match s with
  | "" => acc
  | String c s' => int_acc (10 * acc + (ord c - 48)) s'
  end.
Definition int (s : string) : Z := int_acc 0 s.

(** What [read()] makes of the decoded text of a file opened with
    [newline=None] (universal newlines): each CR becomes LF, and an LF
    right after a CR is dropped. *)
Fixpoint newlines (after_cr : bool) (s : string) : string :=
  match s with
  | "" => ""
  | String c s' =>
      if Ascii.eqb c (ascii_of_nat 13) then
        String (ascii_of_nat 10) (newlines true s')
      else if after_cr && Ascii.eqb c (ascii_of_nat 10) then newlines false s'
      else String c (newlines false s')
  end.
Definition universal_newlines (s : string) : string := newlines false s.

(** Truth value of a [str]: non-empty. *)
Definition str_truthy (s : string) : bool :=
  match s with "" => false | _ => true end.

(** Truth value of an [int] or [None] ([if subsection:]). *)
Definition truthy (x : option Z) : bool :=
  match x with
  | Some z => negb (z =? 0)
  | None => false
  end.

(** [x < y] on values that are an [int] or [None]: comparing with
    [None] raises [TypeError] (the result [None] here). *)
Definition lt_int_or_None (x y : option Z) : option bool :=
  match x, y with
  | Some a, Some b => Some (a <? b)
  | _, _ => None
  end.

End Py.

(** ** The two regular expressions *)

Module Re.

(** [(\d+)] at the start of [s]: the longest run of digits and the
    rest.  A shorter run never lets the pattern go on, because the
    next pattern character is not a digit. *)
Fixpoint digits (s : string) : string * string :=
  match s with
  | "" => ("", "")
  | String c s' =>
      if Py.is_decimal c
      then let '(d, r) := digits s' in (String c d, r)
      else ("", s)
  end.

(** [(\S+)$]: the whole of [s] without white space; [$] also matches
    just before a final newline. *)
Fixpoint nonspace_end (s : string) : option string :=
  match s with
  | "" => None
  | String c s' =>
      if Py.is_space c then None
      else if String.eqb s' "" || String.eqb s' nl then Some (String c "")
      else String c <$> nonspace_end s'
  end.

(** [(\S+)\.cpp$]: the group is what precedes the final [.cpp]. *)
Fixpoint stem_cpp (s : string) : option string :=
  match s with
  | "" => None
  | String c s' =>
      if Py.is_space c then None
      else if String.eqb s' ".cpp" || String.eqb s' (".cpp" +:+ nl) then Some (String c "")
      else String c <$> stem_cpp s'
  end.

(** The groups of a match of [FILE_RE]; [group3] is [None] when the
    optional part did not take part in the match. *)
Record file_match := FileMatch {
  group1 : string;
  group2 : string;
  group3 : option string;
  group4 : string
}.

(** [FILE_RE = ^(\d+)\.(\d+)(?:\.(\d+))?_(\S+)\.cpp$] *)
Definition FILE_RE_match (file : string) : option file_match :=
  let '(g1, r1) := digits file in
  if Py.str_truthy g1 then
    match r1 with
    | String "."%char r2 =>
        let '(g2, r3) := digits r2 in
        if Py.str_truthy g2 then
          match r3 with
          | String "_"%char r =>
              g4 ← stem_cpp r; Some (FileMatch g1 g2 None g4)
          | String "."%char r4 =>
              let '(g3, r5) := digits r4 in
              if Py.str_truthy g3 then
                match r5 with
                | String "_"%char r =>
                    g4 ← stem_cpp r; Some (FileMatch g1 g2 (Some g3) g4)
                | _ => None
                end
              else None
          | _ => None
          end
        else None
    | _ => None
    end
  else None.

(** [DIR_RE = ^(\d+)-(\S+)$]: the two groups. *)
Definition DIR_RE_match (file : string) : option (string * string) :=
  let '(g1, r1) := digits file in
  if Py.str_truthy g1 then
    match r1 with
    | String "-"%char r => g2 ← nonspace_end r; Some (g1, g2)
    | _ => None
    end
  else None.

End Re.

(** ** The section title table *)

Definition SECTION_NAMES : gmap (Z * Z) string :=
  list_to_map [
    ((1, 1), "Array Transformations");
    ((1, 2), "Array Queries");
    ((1, 3), "Searching");
    ((1, 4), "Cycle Detection");
    ((2, 1), "Heaps");
    ((2, 2), "Dictionaries");
    ((2, 3), "Range Queries in One Dimension");
    ((2, 4), "Range Queries in Two Dimensions");
    ((2, 5), "Fenwick Trees");
    ((2, 6), "Tree Data Structures");
    ((3, 1), "String Utilities");
    ((3, 3), "String Searching");
    ((3, 2), "Expression Parsing");
    ((3, 4), "Dynamic Programming");
    ((3, 5), "Suffix Array and LCP");
    ((3, 6), "String Data Structures");
    ((4, 1), "Depth-First Search");
    ((4, 2), "Shortest Path");
    ((4, 3), "Connectivity");
    ((4, 4), "Minimum Spanning Tree");
    ((4, 5), "Maximum Flow");
    ((4, 6), "Maximum Matching");
    ((4, 7), "Hard Problems");
    ((5, 1), "Math Utilities");
    ((5, 2), "Combinatorics");
    ((5, 3), "Number Theory");
    ((5, 4), "Arbitrary Precision Arithmetic");
    ((5, 5), "Linear Algebra");
    ((5, 6), "Root Finding and Calculus");
    ((6, 1), "Geometric Classes");
    ((6, 2), "Elementary Geometric Calculations");
    ((6, 3), "Intermediate Geometric Calculations");
    ((6, 4), "Advanced Geometric Computations")
  ].

(** [SECTION_NAMES.get((chapter, section), "")] *)
Definition section_title (chapter section : Z) : string :=
  default "" (SECTION_NAMES !! (chapter, section)).

(** ** Entries and their order *)

(** The tuple [(chapter, section, subsection, name, file)]. *)
Record entry := Entry {
  e_chapter : Z;
  e_section : Z;
  e_subsection : option Z;
  e_name : string;
  e_file : string
}.

Global Instance entry_eq_dec : EqDecision entry.
Proof. solve_decision. Defined.

(** [a < b] on two entries, as Python compares tuples: the first
    position where the two differ (by [==]) decides, by [<] on the
    items there.  [None] is [TypeError]: it is raised when the
    deciding position is the subsection and one of the two is [None]. *)
Definition entry_lt (a b : entry) : option bool :=
  if bool_decide (e_chapter a = e_chapter b) then
    if bool_decide (e_section a = e_section b) then
      if bool_decide (e_subsection a = e_subsection b) then
        if bool_decide (e_name a = e_name b) then
          Some (String.ltb (e_file a) (e_file b))
        else Some (String.ltb (e_name a) (e_name b))
      else Py.lt_int_or_None (e_subsection a) (e_subsection b)
    else Some (e_section a <? e_section b)
  else Some (e_chapter a <? e_chapter b).

(** [sorted(entries)].  The built-in is a stable comparison sort that
    asks only for [x < y]; it is modelled by the stable insertion sort
    over the same comparison, which is also what it runs on short
    lists.  A comparison that raises aborts the sort ([None]).
    [sorted_total] and [sorted_None] below show that the outcome does
    not depend on which comparisons a sort chooses to make. *)
Fixpoint insert (x : entry) (l : list entry) : option (list entry) :=
  match l with
  | [] => Some [x]
  | y :: l' =>
      b ← entry_lt x y;
      if b : bool then Some (x :: y :: l') else (y ::.) <$> insert x l'
  end.

Definition sorted (entries : list entry) : option (list entry) :=
  foldl (λ acc x, acc ≫= insert x) (Some []) entries.

(** ** The file system and the output *)

Inductive exn := AssertionError | TypeError | OSError | UnicodeDecodeError.

Global Instance exn_eq_dec : EqDecision exn.
Proof. solve_decision. Defined.

(** A file that [open(..., 'r')] opens: its bytes do not decode in the
    encoding of the run, or they decode to [text]. *)
Inductive source_file :=
  | Undecodable
  | Decoded (text : string).

Global Instance source_file_eq_dec : EqDecision source_file.
Proof. solve_decision. Defined.

(** A chapter directory: what [os.listdir] returns for it, in the order
    it returns it, and the entries that [open] opens for reading. *)
Record chapter_dir := ChapterDir {
  listdir : list string;
  files : gmap string source_file
}.

(** Lines 81-82, [open(join(dirname, file), 'r')] and [srcfile.read()]:
    [open] raises [OSError] for a name it cannot open, [read] raises
    [UnicodeDecodeError] for bytes that do not decode, and otherwise
    returns the decoded text with universal newlines. *)
Definition read (src : gmap string source_file) (file : string) :
    exn + string :=
  match src !! file with
  | None => inl OSError
  | Some Undecodable => inl UnicodeDecodeError
  | Some (Decoded text) => inr (Py.universal_newlines text)
  end.

(** One [fout.write] call.  [WSource] keeps the name of the file whose
    text is written; the name is not part of the text. *)
Inductive write :=
  | WChapter (title : string)
  | WSection (section_name : string)
  | WSetSection (section : Z)
  | WResetSubsection
  | WSubsection (label : string)
  | WBeginListing
  | WSource (file : string) (text : string)
  | WEndListing.

Global Instance write_eq_dec : EqDecision write.
Proof. solve_decision. Defined.

Definition write_text (w : write) : string :=
  match w with
  | WChapter title => "\chapter{" +:+ title +:+ "}" +:+ nl
  | WSection section_name => nl +:+ "\section{" +:+ section_name +:+ "}" +:+ nl
  | WSetSection section =>
      "\setcounter{section}{" +:+ pretty section +:+ "}" +:+ nl
  | WResetSubsection => "\setcounter{subsection}{0}" +:+ nl
  | WSubsection label => "\subsection{" +:+ label +:+ "}" +:+ nl
  | WBeginListing => "\begin{lstlisting}" +:+ nl
  | WSource _ text => text
  | WEndListing => "\end{lstlisting}" +:+ nl
  end.

(** The text of the file after the writes [fout]. *)
Definition tex (fout : list write) : string :=
  foldr (λ w s, write_text w +:+ s) "" fout.

(** ** gen_chapter *)

(** Lines 62-64: the entry of a matching file. *)
Definition entry_of (chapter : Z) (file : string) (m : Re.file_match) : entry :=
  Entry chapter
        (Py.int (Re.group2 m))
        (match Re.group3 m with
         | Some g => if Py.str_truthy g then Some (Py.int g) else None
         | None => None
         end)
        (Re.group4 m)
        file.

(** Lines 56-65: the loop over [os.listdir(dirname)]; [None] is the
    failed [assert]. *)
Fixpoint scan (chapter : Z) (names : list string) : option (list entry) :=
  match names with
  | [] => Some []
  | file :: names' =>
      match Re.FILE_RE_match file with
      | None => scan chapter names'
      | Some m =>
          if bool_decide (chapter = Py.int (Re.group1 m))
          then (entry_of chapter file m ::.) <$> scan chapter names'
          else None
      end
  end.

(** Lines 71-78: what one iteration writes before the listing. *)
Definition headers (prev_section : option Z) (e : entry) : list write :=
  (if bool_decide (Some (e_section e) = prev_section) then []
   else [WSection (section_title (e_chapter e) (e_section e));
         WSetSection (e_section e)]
        ++ (if Py.truthy (e_subsection e) then [WResetSubsection] else []))
  ++ (if Py.truthy (e_subsection e)
      then [WSubsection (Py.replace "_" " " (e_name e))] else []).

(** Lines 67-84: the loop over the sorted entries.  It returns the
    writes it made and the exception that ended it, if any: [open] or
    [read] raises for a file that cannot be read, after the begin
    marker has been written. *)
Fixpoint write_entries (src : gmap string source_file)
    (prev_section : option Z) (es : list entry) : list write * option exn :=
  match es with
  | [] => ([], None)
  | e :: es' =>
      if e_section e <? 1 then write_entries src prev_section es'
      else
        match read src (e_file e) with
        | inl x => (headers prev_section e ++ [WBeginListing], Some x)
        | inr text =>
            let '(ws, r) := write_entries src (Some (e_section e)) es' in
            (headers prev_section e
               ++ [WBeginListing; WSource (e_file e) text; WEndListing] ++ ws,
             r)
        end
  end.

(** The writes of [gen_chapter] to [fout] and how it ends. *)
Definition chapter_writes (dir : chapter_dir) (chapter : Z)
    (chapter_name : string) : list write * option exn :=
  let title := WChapter (Py.replace "-" " " chapter_name) in
  match scan chapter (listdir dir) with
  | None => ([title], Some AssertionError)
  | Some entries =>
      match sorted entries with
      | None => ([title], Some TypeError)
      | Some es =>
          let '(ws, r) := write_entries (files dir) None es in
          (title :: ws, r)
      end
  end.

(** [f'chapter{chapter}.tex'] *)
Definition chapter_tex (chapter : Z) : string :=
  "chapter" +:+ pretty chapter +:+ ".tex".

(** [gen_chapter(dirname, chapter, chapter_name)] on the output
    directory [book] (file name to text): [open(..., 'w')] replaces the
    file, and the file holds what was written when the call ends. *)
Definition gen_chapter (book : gmap string string) (dir : chapter_dir)
    (chapter : Z) (chapter_name : string) : gmap string string * option exn :=
  let '(fout, r) := chapter_writes dir chapter chapter_name in
  (<[chapter_tex chapter := tex fout]> book, r).

(** ** The main loop *)

(** Lines 91-96 over the listing of the project root: a name with what
    it is, [Some dir] for a directory and [None] for anything else.
    An exception ends the run. *)
Fixpoint main (root : list (string * option chapter_dir))
    (book : gmap string string) : gmap string string * option exn :=
  match root with
  | [] => (book, None)
  | (file, node) :: root' =>
      match node, Re.DIR_RE_match file with
      | Some dir, Some (g1, g2) =>
          let '(book', r) := gen_chapter book dir (Py.int g1) g2 in
          match r with
          | Some e => (book', Some e)
          | None => main root' book'
          end
      | _, _ => main root' book
      end
  end.

(** * The vocabulary of the properties *)

(** ** Orders *)

(** A comparison function that decides a strict total order. *)
Record lawful {A} (cmp : A → A → comparison) : Prop := Lawful {
  cmp_eq x y : cmp x y = Eq ↔ x = y;
  cmp_opp x y : cmp y x = CompOpp (cmp x y);
  cmp_lt_trans x y z : cmp x y = Lt → cmp y z = Lt → cmp x z = Lt
}.

(** The first comparison decides unless it finds its two sides equal. *)
Definition lex (c1 c2 : comparison) : comparison :=
  match c1 with Eq => c2 | _ => c1 end.

Definition lex_prod {A B} (cA : A → A → comparison)
    (cB : B → B → comparison) (p q : A * B) : comparison :=
  lex (cA p.1 q.1) (cB p.2 q.2).

(** The order the sort is meant to produce: position by position, an
    absent subsection below every subsection number. *)
Definition subsection_cmp (x y : option Z) : comparison :=
  match x, y with
  | None, None => Eq
  | None, Some _ => Lt
  | Some _, None => Gt
  | Some a, Some b => a ?= b
  end.

Definition entry_key (e : entry) : Z * (Z * (option Z * (string * string))) :=
  (e_chapter e, (e_section e, (e_subsection e, (e_name e, e_file e)))).

Definition entry_cmp (a b : entry) : comparison :=
  lex (e_chapter a ?= e_chapter b)
    (lex (e_section a ?= e_section b)
       (lex (subsection_cmp (e_subsection a) (e_subsection b))
          (lex (String.compare (e_name a) (e_name b))
               (String.compare (e_file a) (e_file b))))).

Definition entry_le (a b : entry) : Prop := entry_cmp a b ≠ Gt.

Definition is_Lt (c : comparison) : bool :=
  match c with Lt => true | _ => false end.

(** Two entries that [<] cannot compare: same chapter and section, one
    with and one without a subsection number. *)
Definition clash (a b : entry) : Prop :=
  e_chapter a = e_chapter b ∧ e_section a = e_section b ∧
  (e_subsection a = None ∧ is_Some (e_subsection b) ∨
   is_Some (e_subsection a) ∧ e_subsection b = None).

Definition clash_free (l : list entry) : Prop :=
  ∀ a b, a ∈ l → b ∈ l → ¬ clash a b.

(** ** The names in a directory *)

(** The entries of the names that match, in the order of the listing. *)
Definition matched (chapter : Z) (names : list string) : list entry :=
  omap (λ file, entry_of chapter file <$> Re.FILE_RE_match file) names.

(** A name that matches with another chapter number. *)
Definition misplaced (chapter : Z) (file : string) : Prop :=
  ∃ m, Re.FILE_RE_match file = Some m ∧ Py.int (Re.group1 m) ≠ chapter.

(** The section number in the name of a file. *)
Definition section_of (file : string) : option Z :=
  (λ m, Py.int (Re.group2 m)) <$> Re.FILE_RE_match file.

(** ** What was written *)

(** The names of the files whose text was written, in order. *)
Definition sources (fout : list write) : list string :=
  omap (λ w, match w with WSource file _ => Some file | _ => None end) fout.

(** The section numbers that were set, in order. *)
Definition section_numbers (fout : list write) : list Z :=
  omap (λ w, match w with WSetSection s => Some s | _ => None end) fout.

(** The three writes of lines 80-83. *)
Definition listing (file text : string) : list write :=
  [WBeginListing; WSource file text; WEndListing].

(** Every section header in [fout] is followed by the counter of its
    section and carries the title of that section in chapter [c]. *)
Definition titled (c : Z) (fout : list write) : Prop :=
  ∀ ws1 t ws2, fout = ws1 ++ WSection t :: ws2 →
    ∃ s ws3, ws2 = WSetSection s :: ws3 ∧ t = section_title c s.

(** The section of the last file written to [fout]: the value of
    [prev_section] after these writes. *)
Definition previous_section (fout : list write) : option Z :=
  last (sources fout) ≫= section_of.

(** ** The main loop, chapter by chapter *)

(** What the loop does with one entry of the root: nothing, or a call
    of [gen_chapter] for a chapter number, with the writes of the call
    and how it ends. *)
Definition chapter_result (x : string * option chapter_dir) :
    option (Z * (list write * option exn)) :=
  dir ← x.2;
  g ← Re.DIR_RE_match x.1;
  Some (Py.int g.1, chapter_writes dir (Py.int g.1) g.2).

Definition results (root : list (string * option chapter_dir)) :=
  omap chapter_result root.

(** The chapter numbers of the chapter directories of the root. *)
Definition chapters (root : list (string * option chapter_dir)) : list Z :=
  fst <$> results root.

(** The output file of one call. *)
Definition put (book : gmap string string)
    (x : Z * (list write * option exn)) : gmap string string :=
  <[chapter_tex x.1 := tex x.2.1]> book.

(** The main loop over the calls it makes ([main_run] below). *)
Fixpoint run (rs : list (Z * (list write * option exn)))
    (book : gmap string string) : gmap string string * option exn :=
  match rs with
  | [] => (book, None)
  | x :: rs' =>
      match x.2.2 with
      | Some e => (put book x, Some e)
      | None => run rs' (put book x)
      end
  end.

(** Two listings of one directory, of one entry of the root, and of
    one root: the same names in some order, the same texts. *)
Definition same_dir (d1 d2 : chapter_dir) : Prop :=
  listdir d1 ≡ₚ listdir d2 ∧ files d1 = files d2.

Definition same_node (x y : string * option chapter_dir) : Prop :=
  x.1 = y.1 ∧ option_Forall2 same_dir x.2 y.2.

Definition same_tree (root1 root2 : list (string * option chapter_dir)) : Prop :=
  ∃ root, root1 ≡ₚ root ∧ Forall2 same_node root root2.

(** ** Example directories *)

(** The two files of the chapter [1-intro]. *)
Definition intro_files : gmap string source_file :=
  {[ "1.1_scan.cpp" := Decoded "int x;";
     "1.2.1_probe_sort.cpp" := Decoded "int y;" ]}.

Definition intro_dir : chapter_dir :=
  ChapterDir ["1.2.1_probe_sort.cpp"; "1.1_scan.cpp"] intro_files.

(** The text of [chapter1.tex] for them. *)
Definition intro_tex : string :=
  "\chapter{intro}" +:+ nl +:+
  nl +:+ "\section{Array Transformations}" +:+ nl +:+
  "\setcounter{section}{1}" +:+ nl +:+
  "\begin{lstlisting}" +:+ nl +:+ "int x;" +:+ "\end{lstlisting}" +:+ nl +:+
  nl +:+ "\section{Array Queries}" +:+ nl +:+
  "\setcounter{section}{2}" +:+ nl +:+
  "\setcounter{subsection}{0}" +:+ nl +:+
  "\subsection{probe sort}" +:+ nl +:+
  "\begin{lstlisting}" +:+ nl +:+ "int y;" +:+ "\end{lstlisting}" +:+ nl.

(** The first of the two files alone. *)
Definition scan_dir : chapter_dir :=
  ChapterDir ["1.1_scan.cpp"] intro_files.

(** [3-bar], which holds a file of chapter 2. *)
Definition bar_dir : chapter_dir :=
  ChapterDir ["2.1_foo.cpp"] {[ "2.1_foo.cpp" := Decoded "int z;" ]}.

(** A file of section 0, which the loop skips. *)
Definition notes_dir : chapter_dir :=
  ChapterDir ["1.0_notes.cpp"] {[ "1.0_notes.cpp" := Decoded "int z;" ]}.

(** The one-character string ["\r"]. *)
Definition cr : string := String (ascii_of_nat 13) "".

(** A file with a line that ends in CR LF and a line that ends in CR. *)
Definition crlf_dir : chapter_dir :=
  ChapterDir ["1.1_scan.cpp"]
    {[ "1.1_scan.cpp" :=
         Decoded ("int x;" +:+ cr +:+ nl +:+ "int y;" +:+ cr
                  +:+ "int z;" +:+ nl) ]}.

(** A file of section 0 with a subsection number. *)
Definition appendix_dir : chapter_dir :=
  ChapterDir ["1.0.1_probe_sort.cpp"]
    {[ "1.0.1_probe_sort.cpp" := Decoded "int y;" ]}.

(** A file with the subsection number 0. *)
Definition zero_dir : chapter_dir :=
  ChapterDir ["1.1.0_x_y.cpp"] {[ "1.1.0_x_y.cpp" := Decoded "int v;" ]}.

(** ** The shape of the names *)

Fixpoint string_forall (P : ascii → bool) (s : string) : bool :=
  match s with
  | "" => true
  | String c s' => P c && string_forall P s'
  end.

(** A text without carriage return. *)
Definition no_CR (s : string) : Prop :=
  string_forall (λ c, negb (Ascii.eqb c (ascii_of_nat 13))) s = true.

(** What [\d+] and [\S+] match as a whole: a non-empty run of decimal
    digits, a non-empty run of characters other than white space. *)
Definition number (s : string) : Prop :=
  s ≠ "" ∧ string_forall Py.is_decimal s = true.

Definition token (s : string) : Prop :=
  s ≠ "" ∧ string_forall (λ c, negb (Py.is_space c)) s = true.

(** The name that the groups of a match of [FILE_RE] spell. *)
Definition file_name (m : Re.file_match) : string :=
  Re.group1 m +:+ "." +:+ Re.group2 m
  +:+ match Re.group3 m with Some g => "." +:+ g | None => "" end
  +:+ "_" +:+ Re.group4 m +:+ ".cpp".

Definition file_groups (m : Re.file_match) : Prop :=
  number (Re.group1 m) ∧ number (Re.group2 m) ∧
  (∀ g, Re.group3 m = Some g → number g) ∧ token (Re.group4 m).

(** The first character of [s], if any, is no decimal digit. *)
Definition no_digit_ahead (s : string) : Prop :=
  match s with
  | "" => True
  | String c _ => Py.is_decimal c = false
  end.

(** ** The outcome of a chapter *)

(** A name that matches with a section of at least 1: the loop lists
    the file of that name. *)
Definition listable (file : string) : bool :=
  match Re.FILE_RE_match file with
  | Some m => bool_decide (1 ≤ Py.int (Re.group2 m))
  | None => false
  end.

(** The exception that reading the file of a name raises, if any. *)
Definition read_error (dir : chapter_dir) (file : string) : option exn :=
  match read (files dir) file with
  | inl x => Some x
  | inr _ => None
  end.

(** A name that the loop lists and whose file cannot be read. *)
Definition unreadable (dir : chapter_dir) (file : string) : Prop :=
  listable file = true ∧ is_Some (read_error dir file).

(** The loop of chapter [chapter] comes to [file1] before [file2]: the
    entry of [file1] is below the entry of [file2]. *)
Definition listed_before (chapter : Z) (file1 file2 : string) : Prop :=
  ∃ m1 m2,
    Re.FILE_RE_match file1 = Some m1 ∧ Re.FILE_RE_match file2 = Some m2 ∧
    entry_cmp (entry_of chapter file1 m1) (entry_of chapter file2 m2) = Lt.

(** [file] is the first name the loop comes to whose file cannot be
    read, and reading it raises [x]. *)
Definition first_unreadable (dir : chapter_dir) (chapter : Z)
    (file : string) (x : exn) : Prop :=
  file ∈ listdir dir ∧ listable file = true ∧ read_error dir file = Some x ∧
  ∀ file', file' ∈ listdir dir → listable file' = true →
           listed_before chapter file' file → read_error dir file' = None.

(** Two entries of the directory that the sort cannot compare. *)
Definition mixed (chapter : Z) (names : list string) : Prop :=
  ∃ a b, a ∈ matched chapter names ∧ b ∈ matched chapter names ∧ clash a b.

(** Every begin marker in [fout] is followed by the text of a file and
    the end marker, or ends [fout]. *)
Definition bracketed (fout : list write) : Prop :=
  ∀ ws1 ws2, fout = ws1 ++ WBeginListing :: ws2 →
    ws2 = [] ∨ ∃ file text ws3, ws2 = WSource file text :: WEndListing :: ws3.

(** ** More example directories *)

(** [1-intro] after the second of its files has become unreadable. *)
Definition torn_dir : chapter_dir :=
  ChapterDir ["1.1_scan.cpp"; "1.2.1_probe_sort.cpp"]
    {[ "1.1_scan.cpp" := Decoded "int x;" ]}.

(** [1-intro] with a first file whose bytes do not decode and without
    its second file. *)
Definition garbled_dir : chapter_dir :=
  ChapterDir ["1.2.1_probe_sort.cpp"; "1.1_scan.cpp"]
    {[ "1.1_scan.cpp" := Undecodable ]}.

(** * Properties *)

(** ** Checks on concrete names *)

Example FILE_RE_scan :
  Re.FILE_RE_match "1.1_scan.cpp" = Some (Re.FileMatch "1" "1" None "scan").
Proof. reflexivity. Qed.

Example FILE_RE_probe_sort :
  Re.FILE_RE_match "1.2.1_probe_sort.cpp"
  = Some (Re.FileMatch "1" "2" (Some "1") "probe_sort").
Proof. reflexivity. Qed.

Example FILE_RE_inner_cpp :
  Re.FILE_RE_match "10.02_a.cpp.cpp" = Some (Re.FileMatch "10" "02" None "a.cpp").
Proof. reflexivity. Qed.

Example FILE_RE_no_name : Re.FILE_RE_match "1.1_.cpp" = None.
Proof. reflexivity. Qed.

Example FILE_RE_header : Re.FILE_RE_match "1.1_scan.h" = None.
Proof. reflexivity. Qed.

Example FILE_RE_space : Re.FILE_RE_match "1.1_probe sort.cpp" = None.
Proof. reflexivity. Qed.

Example DIR_RE_intro : Re.DIR_RE_match "1-intro" = Some ("1", "intro").
Proof. reflexivity. Qed.

Example DIR_RE_Book : Re.DIR_RE_match "Book" = None.
Proof. reflexivity. Qed.

(** ** Lexicographic comparisons *)

Lemma lex_lawful {A B} (cA : A → A → comparison) (cB : B → B → comparison) :
  lawful cA → lawful cB → lawful (lex_prod cA cB).
Proof.
  intros [eA oA tA] [eB oB tB]. unfold lex_prod. split.
  - intros [a b] [a' b']; simpl. split.
    + destruct (cA a a') eqn:E; simpl; try done.
      intros ?%eB. apply eA in E. by subst.
    + intros [= <- <-]. by rewrite (proj2 (eA a a) eq_refl), (proj2 (eB b b) eq_refl).
  - intros [a b] [a' b']; simpl. rewrite oA, oB.
    by destruct (cA a a').
  - intros [a b] [a' b'] [a'' b'']; simpl.
    destruct (cA a a') eqn:E1; simpl; try done.
    + apply eA in E1 as <-. destruct (cA a a'') eqn:E2; simpl; try done.
      apply tB.
    + intros _. destruct (cA a' a'') eqn:E2; simpl; try done.
      * apply eA in E2 as <-. by rewrite E1.
      * by rewrite (tA _ _ _ E1 E2).
Qed.

Lemma lawful_inj {A B} (f : A → B) (cB : B → B → comparison) :
  Inj (=) (=) f → lawful cB → lawful (λ x y, cB (f x) (f y)).
Proof.
  intros Hf [eB oB tB]. split.
  - intros x y. rewrite eB. split; [apply Hf | congruence].
  - intros x y. apply oB.
  - intros x y z. apply tB.
Qed.

Lemma Z_compare_lawful : lawful Z.compare.
Proof.
  split.
  - apply Z.compare_eq_iff.
  - intros x y. apply Z.compare_antisym.
  - intros x y z. rewrite !Z.compare_lt_iff. lia.
Qed.

Lemma string_compare_refl s : String.compare s s = Eq.
Proof.
  induction s as [|c s IH]; simpl; [done|].
  unfold Ascii.compare. by rewrite N.compare_refl.
Qed.

Lemma string_compare_lawful : lawful String.compare.
Proof.
  split.
  - intros x y. split; [apply String.compare_eq_iff|].
    intros ->. apply string_compare_refl.
  - intros x y. apply String.compare_antisym.
  - intros x y z Hxy Hyz.
    assert (String.le x z) as Hle.
    { trans y; unfold String.le, String.leb; by rewrite ?Hxy, ?Hyz. }
    unfold String.le, String.leb in Hle.
    destruct (String.compare x z) eqn:E; try done.
    apply String.compare_eq_iff in E as ->.
    rewrite String.compare_antisym, Hyz in Hxy. done.
Qed.

(** ** The order of the entries *)

Lemma subsection_cmp_lawful : lawful subsection_cmp.
Proof.
  split.
  - intros [x|] [y|]; simpl; try (split; intros; congruence).
    rewrite Z.compare_eq_iff. split; congruence.
  - intros [x|] [y|]; simpl; try done. apply Z.compare_antisym.
  - intros [x|] [y|] [z|]; simpl; try done.
    rewrite !Z.compare_lt_iff. lia.
Qed.

Lemma entry_cmp_lawful : lawful entry_cmp.
Proof.
  pose (key_cmp := lex_prod Z.compare (lex_prod Z.compare
          (lex_prod subsection_cmp (lex_prod String.compare String.compare)))).
  change entry_cmp with (λ a b, key_cmp (entry_key a) (entry_key b)).
  apply (lawful_inj entry_key key_cmp).
  - intros [] [] [=]. by subst.
  - repeat apply lex_lawful;
      auto using Z_compare_lawful, string_compare_lawful, subsection_cmp_lawful.
Qed.

Global Instance entry_le_refl : Reflexive entry_le.
Proof.
  intros a. unfold entry_le.
  by rewrite (proj2 (cmp_eq _ entry_cmp_lawful a a) eq_refl).
Qed.

Lemma entry_cmp_Gt a b : entry_cmp a b = Gt ↔ entry_cmp b a = Lt.
Proof.
  rewrite (cmp_opp _ entry_cmp_lawful b a). by destruct (entry_cmp b a).
Qed.

Global Instance entry_le_trans : Transitive entry_le.
Proof.
  intros a b c. unfold entry_le. rewrite !entry_cmp_Gt. intros Hba Hcb Hca.
  destruct (entry_cmp b a) eqn:E1; try done.
  - apply (cmp_eq _ entry_cmp_lawful) in E1 as ->. done.
  - apply entry_cmp_Gt in E1.
    destruct (entry_cmp c b) eqn:E2; try done.
    + apply (cmp_eq _ entry_cmp_lawful) in E2 as ->.
      apply entry_cmp_Gt in Hca. congruence.
    + apply entry_cmp_Gt in E2.
      pose proof (cmp_lt_trans _ entry_cmp_lawful _ _ _ E1 E2) as H.
      apply entry_cmp_Gt in Hca. congruence.
Qed.

Global Instance entry_le_antisym : AntiSymm (=) entry_le.
Proof.
  intros a b. unfold entry_le. intros Hab Hba.
  destruct (entry_cmp a b) eqn:E; try done.
  - by apply (cmp_eq _ entry_cmp_lawful) in E.
  - rewrite <- entry_cmp_Gt in E. done.
Qed.

Lemma entry_le_total a b : entry_le a b ∨ entry_le b a.
Proof.
  unfold entry_le. destruct (entry_cmp a b) eqn:E; auto.
  right. apply entry_cmp_Gt in E. congruence.
Qed.

Lemma clash_sym a b : clash a b → clash b a.
Proof. unfold clash. intros (-> & -> & [[??]|[??]]); auto. Qed.

(** [entry_lt] raises exactly on a clash, and where it answers it
    decides the order [entry_cmp]. *)
Lemma entry_lt_None a b : entry_lt a b = None ↔ clash a b.
Proof.
  unfold entry_lt, clash, Py.lt_int_or_None.
  destruct a as [c1 s1 u1 n1 f1], b as [c2 s2 u2 n2 f2]; simpl.
  repeat case_bool_decide; subst.
  - split; [done|]. intros (_ & _ & [[? [? ?]]|[[? ?] ?]]); simplify_eq.
  - split; [done|]. intros (_ & _ & [[? [? ?]]|[[? ?] ?]]); simplify_eq.
  - destruct u1 as [x|], u2 as [y|]; try done; split; try done.
    + intros (_ & _ & [[? [? ?]]|[[? ?] ?]]); simplify_eq.
    + intros _. split_and!; eauto.
    + intros _. split_and!; eauto.
  - split; [done|]. by intros (_ & ? & _).
  - split; [done|]. by intros (? & _).
Qed.

Lemma entry_lt_Some a b v : entry_lt a b = Some v → v = is_Lt (entry_cmp a b).
Proof.
  unfold entry_lt, entry_cmp, Py.lt_int_or_None, String.ltb, Z.ltb.
  destruct a as [c1 s1 u1 n1 f1], b as [c2 s2 u2 n2 f2]; simpl.
  assert (∀ u, subsection_cmp u u = Eq) as Hu.
  { intros u. by apply (cmp_eq _ subsection_cmp_lawful). }
  repeat case_bool_decide; subst;
    rewrite ?Z.compare_refl, ?Hu, ?string_compare_refl; simpl.
  - intros [= <-]. by destruct (String.compare f1 f2).
  - intros [= <-]. destruct (String.compare n1 n2) eqn:E; try done.
    by apply String.compare_eq_iff in E.
  - destruct u1 as [x|], u2 as [y|]; try done. simpl. intros [= <-].
    destruct (x ?= y) eqn:E; try done.
    apply Z.compare_eq_iff in E. congruence.
  - intros [= <-]. destruct (s1 ?= s2) eqn:E; try done.
    by apply Z.compare_eq_iff in E.
  - intros [= <-]. destruct (c1 ?= c2) eqn:E; try done.
    by apply Z.compare_eq_iff in E.
Qed.

Lemma entry_le_chapter a b : entry_le a b → e_chapter a ≤ e_chapter b.
Proof.
  unfold entry_le, entry_cmp.
  destruct (Z.compare_spec (e_chapter a) (e_chapter b)); simpl; try lia.
  intros Hgt; exfalso; by apply Hgt.
Qed.

Lemma entry_le_section a b :
  entry_le a b → e_chapter a = e_chapter b → e_section a ≤ e_section b.
Proof.
  unfold entry_le, entry_cmp. intros H E. rewrite E in H. revert H.
  rewrite Z.compare_refl; simpl.
  destruct (Z.compare_spec (e_section a) (e_section b)); simpl; try lia.
  intros Hgt; exfalso; by apply Hgt.
Qed.

Lemma entry_le_subsection a b :
  entry_le a b → e_chapter a = e_chapter b → e_section a = e_section b →
  subsection_cmp (e_subsection a) (e_subsection b) ≠ Gt.
Proof.
  unfold entry_le, entry_cmp. intros H E1 E2. rewrite E1, E2 in H. revert H.
  rewrite !Z.compare_refl; simpl.
  by destruct (subsection_cmp _ _).
Qed.

Lemma is_Lt_le a b : is_Lt (entry_cmp a b) = true → entry_le a b.
Proof. unfold entry_le. by destruct (entry_cmp a b). Qed.

Lemma not_is_Lt_le a b : is_Lt (entry_cmp a b) = false → entry_le b a.
Proof.
  unfold entry_le. rewrite entry_cmp_Gt. by destruct (entry_cmp a b).
Qed.

(** Between two entries of one section lie only entries of that
    section, and [<] compares all of them or none. *)
Lemma clash_between x h y :
  entry_le x h → entry_le h y → ¬ clash x h → ¬ clash h y → ¬ clash x y.
Proof.
  intros Hxh Hhy N1 N2 (Hc & Hs & Hu).
  assert (e_chapter h = e_chapter x) as Hch.
  { apply entry_le_chapter in Hxh, Hhy. lia. }
  assert (e_section h = e_section x) as Hsh.
  { apply entry_le_section in Hxh, Hhy; lia. }
  destruct (e_subsection h) as [k|] eqn:Eh.
  - destruct Hu as [[Ex Ey]|[Ex Ey]].
    + apply N1. unfold clash. rewrite Eh. split_and!; eauto.
    + apply N2. unfold clash. rewrite Eh. split_and!; eauto with lia.
  - destruct Hu as [[Ex Ey]|[Ex Ey]].
    + apply N2. unfold clash. rewrite Eh. split_and!; eauto with lia.
    + apply N1. unfold clash. rewrite Eh. split_and!; eauto.
Qed.

(** *** The insertion step *)

Lemma insert_perm x l l' : insert x l = Some l' → l' ≡ₚ x :: l.
Proof.
  revert l'. induction l as [|y l IH]; intros l'; simpl.
  - by intros [= <-].
  - destruct (entry_lt x y) as [[]|]; simpl; try done.
    + by intros [= <-].
    + destruct (insert x l) as [l''|]; simpl; try done.
      intros [= <-]. rewrite (IH l'' eq_refl). apply Permutation_swap.
Qed.

Lemma insert_sorted x l l' :
  StronglySorted entry_le l → insert x l = Some l' →
  StronglySorted entry_le l'.
Proof.
  revert l'. induction l as [|y l IH]; intros l' Hl; simpl.
  - intros [= <-]. repeat constructor.
  - apply StronglySorted_inv in Hl as [Hl Hy].
    destruct (entry_lt x y) as [b|] eqn:E; simpl; try done.
    apply entry_lt_Some in E. destruct b.
    + intros [= <-]. symmetry in E. apply is_Lt_le in E.
      constructor; [by constructor|].
      constructor; [done|].
      eapply Forall_impl; [exact Hy|]. intros z ?. by trans y.
    + destruct (insert x l) as [l''|] eqn:E'; simpl; try done.
      intros [= <-]. symmetry in E. apply not_is_Lt_le in E.
      constructor; [by apply IH|].
      apply insert_perm in E'. rewrite E'. by constructor.
Qed.

Lemma insert_None x l :
  StronglySorted entry_le l → clash_free l →
  insert x l = None ↔ ∃ y, y ∈ l ∧ clash x y.
Proof.
  induction l as [|h l IH]; intros Hl Hfree; simpl.
  - split; [done|]. intros (y & Hy & _). by apply elem_of_nil in Hy.
  - apply StronglySorted_inv in Hl as [Hl Hh].
    assert (clash_free l) as Hfree'.
    { intros a b ??. apply Hfree; by right. }
    destruct (entry_lt x h) as [b|] eqn:E; simpl.
    + assert (¬ clash x h) as Nxh.
      { rewrite <- entry_lt_None. congruence. }
      apply entry_lt_Some in E. destruct b.
      * split; [done|]. intros (y & Hy & Hxy). exfalso.
        apply elem_of_cons in Hy as [->|Hy]; [done|].
        symmetry in E. apply is_Lt_le in E.
        eapply (clash_between x h y); eauto.
        -- rewrite Forall_forall in Hh. by apply Hh.
        -- apply Hfree; [by left | by right].
      * rewrite fmap_None, (IH Hl Hfree'). split.
        -- intros (y & ? & ?). exists y. split; [by right | done].
        -- intros (y & Hy & Hxy).
           apply elem_of_cons in Hy as [->|Hy]; [done|]. eauto.
    + split; [|done]. intros _. exists h. split; [by left|].
      by apply entry_lt_None.
Qed.

(** *** The sort *)

Lemma sorted_from_None l : foldl (λ acc x, acc ≫= insert x) None l = None.
Proof. by induction l. Qed.

Lemma clash_free_perm l1 l2 : l1 ≡ₚ l2 → clash_free l1 → clash_free l2.
Proof. intros Hp H a b Ha Hb. apply H; by rewrite Hp. Qed.

Lemma sorted_from_Some l acc l' :
  StronglySorted entry_le acc → clash_free acc →
  foldl (λ acc x, acc ≫= insert x) (Some acc) l = Some l' →
  l' ≡ₚ acc ++ l ∧ StronglySorted entry_le l' ∧ clash_free (acc ++ l).
Proof.
  revert acc. induction l as [|x l IH]; intros acc Hs Hf; simpl.
  - intros [= <-]. by rewrite app_nil_r.
  - destruct (insert x acc) as [acc'|] eqn:E.
    + intros H.
      pose proof (insert_perm _ _ _ E) as Hp.
      assert (clash_free (x :: acc)) as Hf'.
      { intros a b Ha Hb.
        assert (∀ y, y ∈ acc → ¬ clash x y) as Hx.
        { intros y Hy Hc.
          assert (insert x acc = None) by (apply insert_None; eauto).
          congruence. }
        apply elem_of_cons in Ha as [->|Ha], Hb as [->|Hb]; eauto.
        - intros (_ & _ & [[? [? ?]]|[[? ?] ?]]); congruence.
        - intros ?%clash_sym. by eapply Hx. }
      apply IH in H as (H1 & H2 & H3).
      * split_and!; [|done|].
        -- rewrite H1, Hp. simpl. by rewrite Permutation_middle.
        -- eapply clash_free_perm; [|exact H3].
           rewrite Hp. simpl. by rewrite Permutation_middle.
      * by eapply insert_sorted.
      * eapply clash_free_perm; [|exact Hf']. done.
    + by rewrite sorted_from_None.
Qed.

Lemma sorted_from_clash_free l acc :
  StronglySorted entry_le acc → clash_free (acc ++ l) →
  is_Some (foldl (λ acc x, acc ≫= insert x) (Some acc) l).
Proof.
  revert acc. induction l as [|x l IH]; intros acc Hs Hf; simpl; [eauto|].
  assert (clash_free acc) as Hfa.
  { intros a b ??. apply Hf; apply elem_of_app; by left. }
  destruct (insert x acc) as [acc'|] eqn:E.
  - pose proof (insert_perm _ _ _ E) as Hp.
    apply IH; [by eapply insert_sorted|].
    eapply clash_free_perm; [|exact Hf].
    rewrite Hp. simpl. by rewrite Permutation_middle.
  - apply insert_None in E as (y & Hy & Hc); [|done..].
    exfalso. eapply (Hf x y); [| |done]; set_solver.
Qed.

(** The sort succeeds exactly on the lists that [<] can compare, and
    then returns the list in the order [entry_le]. *)
Lemma sorted_Some entries es :
  sorted entries = Some es →
  es ≡ₚ entries ∧ StronglySorted entry_le es ∧ clash_free entries.
Proof.
  intros H. apply sorted_from_Some in H; [done|constructor|].
  intros a b Ha. by apply elem_of_nil in Ha.
Qed.

Lemma sorted_total entries : clash_free entries → is_Some (sorted entries).
Proof. intros H. apply sorted_from_clash_free; [constructor|done]. Qed.

Lemma sorted_None entries : sorted entries = None ↔ ¬ clash_free entries.
Proof.
  split.
  - intros H Hf. apply sorted_total in Hf as [? ?]. congruence.
  - intros H. destruct (sorted entries) eqn:E; [|done].
    apply sorted_Some in E as (_ & _ & ?). done.
Qed.

(** The result does not depend on the order of the input. *)
Lemma sorted_perm l1 l2 : l1 ≡ₚ l2 → sorted l1 = sorted l2.
Proof.
  intros Hp.
  destruct (sorted l1) as [s1|] eqn:E1, (sorted l2) as [s2|] eqn:E2; try done.
  - apply sorted_Some in E1 as (P1 & S1 & _), E2 as (P2 & S2 & _).
    f_equal. apply (StronglySorted_unique entry_le); try done.
    by rewrite P1, P2.
  - apply sorted_Some in E1 as (_ & _ & F). apply sorted_None in E2.
    destruct E2. by eapply clash_free_perm.
  - apply sorted_Some in E2 as (_ & _ & F). apply sorted_None in E1.
    destruct E1. eapply clash_free_perm; [symmetry|]; done.
Qed.

(** ** The scan of the directory *)

Lemma scan_Some chapter names es :
  scan chapter names = Some es → es = matched chapter names.
Proof.
  revert es. induction names as [|file names IH]; intros es; simpl.
  - by intros [= <-].
  - unfold matched; simpl. destruct (Re.FILE_RE_match file) as [m|]; simpl.
    + case_bool_decide; [|done].
      destruct (scan chapter names) as [es'|]; simpl; [|done].
      intros [= <-]. by rewrite (IH es' eq_refl).
    + apply IH.
Qed.

Lemma scan_None chapter names :
  scan chapter names = None ↔ ∃ file, file ∈ names ∧ misplaced chapter file.
Proof.
  induction names as [|file names IH]; simpl.
  - split; [done|]. intros (? & H & _). by apply elem_of_nil in H.
  - destruct (Re.FILE_RE_match file) as [m|] eqn:E.
    + case_bool_decide as Hc.
      * rewrite fmap_None, IH. split.
        -- intros (f & ? & ?). exists f. split; [by right|done].
        -- intros (f & Hf & Hm). apply elem_of_cons in Hf as [->|Hf]; [|eauto].
           destruct Hm as (m' & Hm' & Hne). congruence.
      * split; [|done]. intros _. exists file. split; [by left|].
        exists m. split; [done|congruence].
    + rewrite IH. split.
      * intros (f & ? & ?). exists f. split; [by right|done].
      * intros (f & Hf & Hm). apply elem_of_cons in Hf as [->|Hf]; [|eauto].
        destruct Hm as (m' & Hm' & _). congruence.
Qed.

Lemma elem_of_matched chapter names e :
  e ∈ matched chapter names ↔
  ∃ file m, file ∈ names ∧ Re.FILE_RE_match file = Some m ∧
            e = entry_of chapter file m.
Proof.
  unfold matched. rewrite list_elem_of_omap. split.
  - intros (file & Hf & He). apply fmap_Some in He as (m & ? & ?). eauto.
  - intros (file & m & Hf & Hm & ->). exists file. split; [done|].
    by rewrite Hm.
Qed.

Lemma matched_files chapter names :
  e_file <$> matched chapter names
  = filter (λ file, is_Some (Re.FILE_RE_match file)) names.
Proof.
  unfold matched. induction names as [|file names IH]; simpl; [done|].
  rewrite filter_cons.
  case_decide as H; destruct (Re.FILE_RE_match file) as [m|]; simpl.
  - f_equal. exact IH.
  - by destruct H.
  - destruct H. eauto.
  - exact IH.
Qed.

Lemma matched_perm chapter names1 names2 :
  names1 ≡ₚ names2 → matched chapter names1 ≡ₚ matched chapter names2.
Proof. intros H. unfold matched. by rewrite H. Qed.

Lemma scan_perm chapter names1 names2 :
  names1 ≡ₚ names2 →
  match scan chapter names1, scan chapter names2 with
  | Some es1, Some es2 => es1 ≡ₚ es2
  | None, None => True
  | _, _ => False
  end.
Proof.
  intros Hp.
  destruct (scan chapter names1) as [es1|] eqn:E1,
           (scan chapter names2) as [es2|] eqn:E2; try done.
  - apply scan_Some in E1, E2. subst. by apply matched_perm.
  - apply scan_None in E2 as (f & Hf & Hm).
    assert (scan chapter names1 = None); [|congruence].
    apply scan_None. exists f. by rewrite Hp.
  - apply scan_None in E1 as (f & Hf & Hm).
    assert (scan chapter names2 = None); [|congruence].
    apply scan_None. exists f. by rewrite <- Hp.
Qed.

(** ** The loop over the sorted entries *)

Lemma sources_app ws1 ws2 : sources (ws1 ++ ws2) = sources ws1 ++ sources ws2.
Proof. apply omap_app. Qed.

Lemma section_numbers_app ws1 ws2 :
  section_numbers (ws1 ++ ws2) = section_numbers ws1 ++ section_numbers ws2.
Proof. apply omap_app. Qed.

Lemma sources_headers prev e : sources (headers prev e) = [].
Proof.
  unfold headers. by case_bool_decide; destruct (Py.truthy (e_subsection e)).
Qed.

Lemma section_numbers_headers prev e :
  section_numbers (headers prev e)
  = if bool_decide (Some (e_section e) = prev) then [] else [e_section e].
Proof.
  unfold headers. by case_bool_decide; destruct (Py.truthy (e_subsection e)).
Qed.

Lemma string_app_cons c s t : String c s +:+ t = String c (s +:+ t).
Proof. reflexivity. Qed.

Lemma string_app_assoc s t u : (s +:+ t) +:+ u = s +:+ (t +:+ u).
Proof.
  induction s as [|c s IH]; [done|]. by rewrite !string_app_cons, IH.
Qed.

Lemma tex_app ws1 ws2 : tex (ws1 ++ ws2) = tex ws1 +:+ tex ws2.
Proof.
  induction ws1 as [|w ws1 IH]; simpl; [done|].
  by rewrite IH, string_app_assoc.
Qed.

(** Entries of a section below 1 leave no trace. *)
Lemma write_entries_filter src prev es :
  write_entries src prev es
  = write_entries src prev (filter (λ e, 1 ≤ e_section e) es).
Proof.
  revert prev. induction es as [|e es IH]; intros prev; simpl; [done|].
  rewrite filter_cons. destruct (Z.ltb_spec (e_section e) 1) as [Hlt|Hge].
  - rewrite decide_False by lia. apply IH.
  - rewrite decide_True by lia. simpl.
    destruct (Z.ltb_spec (e_section e) 1); [lia|].
    destruct (read src (e_file e)); [done|]. by rewrite IH.
Qed.

Lemma sources_write_entries src prev es ws :
  write_entries src prev es = (ws, None) →
  sources ws = e_file <$> filter (λ e, 1 ≤ e_section e) es.
Proof.
  revert prev ws. induction es as [|e es IH]; intros prev ws; simpl.
  - by intros [= <-].
  - rewrite filter_cons. destruct (Z.ltb_spec (e_section e) 1) as [Hlt|Hge].
    + rewrite decide_False by lia. apply IH.
    + rewrite decide_True by lia.
      destruct (read src (e_file e)) as [x|text]; [done|].
      destruct (write_entries src (Some (e_section e)) es) as [ws' r] eqn:E.
      intros [= <- ->]. rewrite sources_app, sources_headers. simpl.
      f_equal. by eapply IH.
Qed.

(** Where the listing of an entry stands in the output: after the
    headers of its own iteration, which follow either the start of the
    loop or the listing of the entry before it. *)
Lemma write_entries_block src prev es ws e :
  write_entries src prev es = (ws, None) → e ∈ es → 1 ≤ e_section e →
  ∃ ws1 ws2 text p,
    read src (e_file e) = inr text ∧
    ws = ws1 ++ headers p e ++ listing (e_file e) text ++ ws2 ∧
    (ws1 = [] ∧ p = prev ∨
     ∃ ws0 e' text', ws1 = ws0 ++ [WSource (e_file e') text'; WEndListing] ∧
                     p = Some (e_section e') ∧ e' ∈ es).
Proof.
  revert prev ws. induction es as [|e0 es IH]; intros prev ws; simpl.
  - intros _ H. by apply elem_of_nil in H.
  - destruct (Z.ltb_spec (e_section e0) 1) as [Hlt|Hge].
    + intros H He Hs. apply elem_of_cons in He as [->|He]; [lia|].
      destruct (IH _ _ H He Hs) as (ws1 & ws2 & text & p & ? & ? & Hp).
      exists ws1, ws2, text, p. split_and!; try done.
      destruct Hp as [?|(ws0 & e' & text' & ? & ? & ?)]; [by left|].
      right. exists ws0, e', text'. split_and!; try done. by right.
    + destruct (read src (e_file e0)) as [x0|text0] eqn:E0; [done|].
      destruct (write_entries src (Some (e_section e0)) es) as [ws' r] eqn:E.
      intros [= <- ->] He Hs. apply elem_of_cons in He as [->|He].
      * exists [], ws', text0, prev. split_and!; try done. by left.
      * destruct (IH _ _ E He Hs) as (ws1 & ws2 & text & p & ? & -> & Hp).
        exists (headers prev e0 ++ listing (e_file e0) text0 ++ ws1),
          ws2, text, p.
        split_and!; try done.
        { by rewrite <- !app_assoc. }
        right. destruct Hp as [[-> ->]|(ws0 & e' & text' & -> & ? & ?)].
        -- exists (headers prev e0 ++ [WBeginListing]), e0, text0.
           split_and!; try done; [|by left].
           by rewrite <- !app_assoc.
        -- exists (headers prev e0 ++ listing (e_file e0) text0 ++ ws0),
             e', text'.
           split_and!; try done; [|by right].
           by rewrite <- !app_assoc.
Qed.

(** The section numbers set by the loop increase strictly when the
    entries come in the order of their sections. *)
Lemma section_numbers_write_entries src prev es ws r :
  write_entries src prev es = (ws, r) →
  StronglySorted (λ a b, e_section a ≤ e_section b) es →
  (∀ p, prev = Some p → Forall (λ e, p ≤ e_section e) es) →
  StronglySorted Z.lt (section_numbers ws) ∧
  Forall (λ n, 1 ≤ n ∧ ∀ p, prev = Some p → p < n) (section_numbers ws).
Proof.
  revert prev ws r. induction es as [|e es IH]; intros prev ws r; simpl.
  - intros [= <- <-] _ _. split; constructor.
  - intros H Hs Hprev. apply StronglySorted_inv in Hs as [Hs He].
    destruct (Z.ltb_spec (e_section e) 1) as [Hlt|Hge].
    + apply (IH _ _ _ H Hs). intros p Hp.
      specialize (Hprev p Hp). by apply Forall_cons_1 in Hprev as [_ ?].
    + assert (∀ p, prev = Some p → p ≤ e_section e) as Hpe.
      { intros p Hp. specialize (Hprev p Hp).
        by apply Forall_cons_1 in Hprev as [? _]. }
      assert (∀ ws' r', write_entries src (Some (e_section e)) es = (ws', r') →
                StronglySorted Z.lt (section_numbers ws') ∧
                Forall (λ n, e_section e < n) (section_numbers ws')) as Hrest.
      { intros ws' r' E. apply IH in E as [S1 S2]; [|done|].
        - split; [done|]. eapply Forall_impl; [exact S2|].
          intros n [_ Hn]. by apply Hn.
        - by intros p [= <-]. }
      assert (∀ ws', StronglySorted Z.lt (section_numbers ws') →
                Forall (λ n, e_section e < n) (section_numbers ws') →
                StronglySorted Z.lt (section_numbers (headers prev e) ++ section_numbers ws') ∧
                Forall (λ n, 1 ≤ n ∧ ∀ p, prev = Some p → p < n)
                  (section_numbers (headers prev e) ++ section_numbers ws'))
        as Hhead.
      { intros ws' S1 S2. rewrite section_numbers_headers.
        assert (Forall (λ n, 1 ≤ n ∧ ∀ p, prev = Some p → p < n)
                  (section_numbers ws')) as S3.
        { eapply Forall_impl; [exact S2|]. intros n Hn. simpl in Hn.
          split; [lia|].
          intros p Hp. specialize (Hpe p Hp). lia. }
        case_bool_decide as Hc; simpl; [done|]. split.
        - by constructor.
        - constructor; [|done]. split; [done|]. intros p Hp.
          specialize (Hpe p Hp). subst prev.
          assert (e_section e ≠ p) by congruence. lia. }
      destruct (read src (e_file e)) as [x|text].
      * injection H as <- <-. rewrite section_numbers_app. simpl.
        apply (Hhead []); constructor.
      * destruct (write_entries src (Some (e_section e)) es) as [ws' r'] eqn:E.
        injection H as <- <-.
        destruct (Hrest _ _ eq_refl) as [S1 S2].
        rewrite section_numbers_app. simpl. by apply Hhead.
Qed.

Lemma titled_nil c : titled c [].
Proof. intros [|??] ?? H; discriminate H. Qed.

Lemma titled_cons c w ws :
  (∀ t, w ≠ WSection t) → titled c ws → titled c (w :: ws).
Proof.
  intros Hw H [|w1 ws1] t ws2 E; simpl in E.
  - injection E as -> _. by destruct (Hw t).
  - injection E as -> ->. by eapply H.
Qed.

Lemma titled_section c s ws (w : write) :
  (∀ t, w ≠ WSection t) → titled c (w :: ws) →
  titled c (WSection (section_title c s) :: WSetSection s :: w :: ws).
Proof.
  intros Hw H [|w1 [|w2 ws1]] t ws2 E; simpl in E.
  - injection E as <- <-. eauto.
  - by simplify_eq.
  - injection E as _ _ E. by eapply H.
Qed.

Lemma titled_write_entries c src prev es ws r :
  Forall (λ e, e_chapter e = c) es →
  write_entries src prev es = (ws, r) → titled c ws.
Proof.
  revert prev ws r. induction es as [|e es IH]; intros prev ws r Hc; simpl.
  - intros [= <- <-]. apply titled_nil.
  - apply Forall_cons_1 in Hc as [Hce Hc].
    destruct (e_section e <? 1); [by apply IH|].
    assert (∀ ws', titled c ws' → titled c (headers prev e ++ WBeginListing :: ws'))
      as Hhead.
    { intros ws' Hws'. unfold headers. rewrite Hce.
      assert (titled c (WBeginListing :: ws')) by (by apply titled_cons).
      case_bool_decide; destruct (Py.truthy (e_subsection e)); simpl;
        repeat first
          [ done
          | apply titled_section; [done|]
          | apply titled_cons; [done|] ]. }
    destruct (read src (e_file e)) as [x|text].
    + intros [= <- <-]. apply Hhead, titled_nil.
    + destruct (write_entries src (Some (e_section e)) es) as [ws' r'] eqn:E.
      intros [= <- <-]. apply Hhead.
      do 2 (apply titled_cons; [done|]). by eapply IH.
Qed.

(** ** gen_chapter *)

(** The three ways [gen_chapter] can go. *)
Lemma chapter_writes_inv dir chapter chapter_name ws r :
  chapter_writes dir chapter chapter_name = (ws, r) →
  let title := WChapter (Py.replace "-" " " chapter_name) in
  (scan chapter (listdir dir) = None ∧ ws = [title] ∧ r = Some AssertionError) ∨
  (scan chapter (listdir dir) = Some (matched chapter (listdir dir)) ∧
   sorted (matched chapter (listdir dir)) = None ∧
   ws = [title] ∧ r = Some TypeError) ∨
  (∃ es body,
     scan chapter (listdir dir) = Some (matched chapter (listdir dir)) ∧
     sorted (matched chapter (listdir dir)) = Some es ∧
     write_entries (files dir) None es = (body, r) ∧ ws = title :: body).
Proof.
  unfold chapter_writes.
  destruct (scan chapter (listdir dir)) as [entries|] eqn:E1.
  - pose proof (scan_Some _ _ _ E1) as ->.
    destruct (sorted _) as [es|] eqn:E2.
    + destruct (write_entries (files dir) None es) as [body r'] eqn:E3.
      intros [= <- <-]. right; right. exists es, body. eauto.
    + intros [= <- <-]. right; left. eauto.
  - intros [= <- <-]. left. eauto.
Qed.

Lemma matched_chapter chapter names :
  Forall (λ e, e_chapter e = chapter) (matched chapter names).
Proof.
  apply Forall_forall. intros e He.
  apply elem_of_matched in He as (file & m & _ & _ & ->). done.
Qed.

Lemma sorted_sections chapter es :
  Forall (λ e, e_chapter e = chapter) es → StronglySorted entry_le es →
  StronglySorted (λ a b, e_section a ≤ e_section b) es.
Proof.
  induction es as [|e es IH]; intros Hc Hs; [constructor|].
  apply Forall_cons_1 in Hc as [Hce Hc].
  apply StronglySorted_inv in Hs as [Hs He].
  constructor; [by apply IH|].
  rewrite Forall_forall in Hc, He. apply Forall_forall. intros e' He'.
  apply entry_le_section; [by apply He|]. rewrite Hce. symmetry. by apply Hc.
Qed.

(** The listing order of the directory does not matter. *)
Lemma chapter_writes_perm dir1 dir2 chapter chapter_name :
  listdir dir1 ≡ₚ listdir dir2 → files dir1 = files dir2 →
  chapter_writes dir1 chapter chapter_name
  = chapter_writes dir2 chapter chapter_name.
Proof.
  intros Hp Hf. unfold chapter_writes.
  pose proof (scan_perm chapter _ _ Hp) as Hs.
  destruct (scan chapter (listdir dir1)), (scan chapter (listdir dir2));
    try done.
  by rewrite (sorted_perm _ _ Hs), Hf.
Qed.

(** ** The names of the output files *)

Lemma string_length_app s t :
  String.length (s +:+ t) = (String.length s + String.length t)%nat.
Proof.
  induction s as [|c s IH]; [done|].
  rewrite string_app_cons. simpl. by rewrite IH.
Qed.

Lemma string_app_inv_r s1 s2 t : s1 +:+ t = s2 +:+ t → s1 = s2.
Proof.
  revert s2. induction s1 as [|c1 s1 IH]; intros [|c2 s2] H; try done.
  - apply (f_equal String.length) in H.
    rewrite string_app_cons in H. simpl in H.
    rewrite !string_length_app in H. simpl in H. lia.
  - apply (f_equal String.length) in H.
    rewrite string_app_cons in H. simpl in H.
    rewrite !string_length_app in H. simpl in H. lia.
  - rewrite !string_app_cons in H. injection H as -> H.
    f_equal. by apply IH.
Qed.

Global Instance chapter_tex_inj : Inj (=) (=) chapter_tex.
Proof.
  intros c1 c2 H. unfold chapter_tex in H.
  apply (inj (String.app "chapter")) in H.
  apply string_app_inv_r in H. by apply (inj pretty) in H.
Qed.

(** ** The main loop *)

Lemma main_run root book : main root book = run (results root) book.
Proof.
  revert book. induction root as [|[file node] root IH]; intros book; [done|].
  simpl. unfold results; simpl. unfold chapter_result at 1; simpl.
  destruct node as [dir|]; simpl; [|apply IH].
  destruct (Re.DIR_RE_match file) as [[g1 g2]|]; simpl; [|apply IH].
  unfold gen_chapter, put.
  destruct (chapter_writes dir (Py.int g1) g2) as [fout [e|]]; simpl; [done|].
  apply IH.
Qed.

Lemma run_success rs book book' :
  run rs book = (book', None) →
  Forall (λ x, x.2.2 = None) rs ∧ book' = foldl put book rs.
Proof.
  revert book. induction rs as [|x rs IH]; intros book; simpl.
  - by intros [= <-].
  - destruct (x.2.2) eqn:E; [done|]. intros H.
    apply IH in H as [? ?]. split; [by constructor|done].
Qed.

Lemma run_total rs book :
  Forall (λ x, x.2.2 = None) rs → run rs book = (foldl put book rs, None).
Proof.
  revert book. induction rs as [|x rs IH]; intros book H; simpl; [done|].
  apply Forall_cons_1 in H as [-> H]. by apply IH.
Qed.

(** The run adds its files to the book, whatever the book holds. *)
Lemma run_union rs book :
  run rs book = ((run rs ∅).1 ∪ book, (run rs ∅).2).
Proof.
  revert book. induction rs as [|x rs IH]; intros book; simpl.
  - by rewrite (left_id_L ∅ (∪)).
  - assert (put book x = put ∅ x ∪ book) as Hput.
    { unfold put. by rewrite insert_empty, <- insert_union_singleton_l. }
    destruct (x.2.2); simpl; [by rewrite Hput|].
    rewrite IH, (IH (put ∅ x)). simpl.
    by rewrite Hput, (assoc_L (∪)).
Qed.

Lemma run_idemp rs book book' r :
  run rs book = (book', r) → run rs book' = (book', r).
Proof.
  rewrite run_union. intros [= <- <-]. rewrite run_union. f_equal.
  by rewrite (assoc_L (∪)), (idemp_L (∪)).
Qed.

Lemma foldl_put_perm rs1 rs2 book :
  rs1 ≡ₚ rs2 → NoDup (fst <$> rs1) → foldl put book rs1 = foldl put book rs2.
Proof.
  intros Hp. revert book.
  induction Hp as [|x l1 l2 Hp IH|x y l|l1 l2 l3 Hp1 IH1 Hp2 IH2];
    intros book Hnd; simpl.
  - done.
  - apply IH. by apply NoDup_cons_1_2 in Hnd.
  - f_equal. unfold put. apply insert_insert_ne.
    intros E%(inj chapter_tex).
    simpl in Hnd. apply NoDup_cons_1_1 in Hnd. apply Hnd. rewrite E. by left.
  - rewrite IH1 by done. apply IH2. by rewrite <- Hp1.
Qed.

Lemma results_same_tree root1 root2 :
  same_tree root1 root2 → results root1 ≡ₚ results root2.
Proof.
  intros (root & Hp & Hf). unfold results. rewrite Hp. clear Hp.
  induction Hf as [|[f1 n1] [f2 n2] l1 l2 [Hn Hd] Hf IH]; [done|].
  simpl in Hn, Hd. subst f2. simpl.
  assert (chapter_result (f1, n1) = chapter_result (f1, n2)) as ->.
  { unfold chapter_result; simpl. destruct Hd as [d1 d2 [Hl Hfiles]|]; [|done].
    simpl. destruct (Re.DIR_RE_match f1) as [g|]; [|done]. simpl.
    by rewrite (chapter_writes_perm d1 d2). }
  destruct (chapter_result (f1, n2)); [by constructor|done].
Qed.

Lemma main_app root1 root2 book :
  main (root1 ++ root2) book
  = match main root1 book with
    | (book', None) => main root2 book'
    | (book', Some e) => (book', Some e)
    end.
Proof.
  revert book. induction root1 as [|[file node] root1 IH]; intros book; simpl.
  - by destruct (main root2 book) as [? [?|]].
  - destruct node as [dir|]; [|apply IH].
    destruct (Re.DIR_RE_match file) as [[g1 g2]|]; [|apply IH].
    destruct (gen_chapter book dir (Py.int g1) g2) as [book' [e|]]; [done|].
    apply IH.
Qed.

(** ** The place of a file in the chapter *)

Lemma previous_section_snoc ws file text :
  previous_section (ws ++ [WSource file text; WEndListing]) = section_of file.
Proof.
  unfold previous_section. rewrite sources_app.
  change (sources [WSource file text; WEndListing]) with [file].
  by rewrite last_snoc.
Qed.

Lemma sources_elem_of src prev es ws r file :
  write_entries src prev es = (ws, r) → file ∈ sources ws →
  ∃ e, e ∈ es ∧ 1 ≤ e_section e ∧ e_file e = file.
Proof.
  revert prev ws r. induction es as [|e es IH]; intros prev ws r; simpl.
  - intros [= <- <-] H. by apply elem_of_nil in H.
  - destruct (Z.ltb_spec (e_section e) 1) as [Hlt|Hge].
    + intros H Hf. destruct (IH _ _ _ H Hf) as (e' & ? & ? & ?).
      exists e'. split_and!; try done. by right.
    + destruct (read src (e_file e)) as [x|text].
      * intros [= <- <-]. rewrite sources_app, sources_headers. simpl.
        intros H. by apply elem_of_nil in H.
      * destruct (write_entries src (Some (e_section e)) es) as [ws' r'] eqn:E.
        intros [= <- <-]. rewrite sources_app, sources_headers. simpl.
        intros [->|Hf]%elem_of_cons.
        -- exists e. split_and!; try done. by left.
        -- destruct (IH _ _ _ E Hf) as (e' & ? & ? & ?).
           exists e'. split_and!; try done. by right.
Qed.

Lemma StronglySorted_filter_1 {A} (R : relation A) (P : A → Prop)
    `{∀ x, Decision (P x)} (l : list A) :
  StronglySorted R l → StronglySorted R (filter P l).
Proof.
  induction 1 as [|x l Hl IH Hx]; [constructor|].
  rewrite filter_cons. case_decide; [|done].
  constructor; [done|]. apply Forall_forall.
  intros y [_ Hy]%list_elem_of_filter. rewrite Forall_forall in Hx. by apply Hx.
Qed.

Lemma matched_NoDup chapter names :
  NoDup names → NoDup (e_file <$> matched chapter names).
Proof. intros H. rewrite matched_files. by apply NoDup_filter. Qed.

(** What a run of [gen_chapter] that ends normally went through. *)
Lemma chapter_writes_ok dir chapter chapter_name fout :
  chapter_writes dir chapter chapter_name = (fout, None) →
  ∃ es body,
    es ≡ₚ matched chapter (listdir dir) ∧ StronglySorted entry_le es ∧
    write_entries (files dir) None es = (body, None) ∧
    fout = WChapter (Py.replace "-" " " chapter_name) :: body.
Proof.
  intros H. apply chapter_writes_inv in H as [(_ & _ & [=])|[(_ & _ & _ & [=])|H]].
  destruct H as (es & body & _ & Hs & Hw & ->).
  apply sorted_Some in Hs as (Hp & Hs & _). eauto 10.
Qed.

Lemma chapter_sources dir chapter chapter_name fout :
  chapter_writes dir chapter chapter_name = (fout, None) →
  ∃ es, StronglySorted entry_le es ∧
        (∀ e, e ∈ es → e ∈ matched chapter (listdir dir) ∧ 1 ≤ e_section e) ∧
        (NoDup (listdir dir) → NoDup (e_file <$> es)) ∧
        sources fout = e_file <$> es.
Proof.
  intros H. apply chapter_writes_ok in H as (es & body & Hp & Hs & Hw & ->).
  exists (filter (λ e, 1 ≤ e_section e) es). split_and!.
  - by apply StronglySorted_filter_1.
  - intros e [? He]%list_elem_of_filter. split; [by rewrite <- Hp | done].
  - intros Hnd. apply (matched_NoDup chapter) in Hnd. rewrite <- Hp in Hnd.
    eapply sublist_NoDup; [exact Hnd|]. apply fmap_sublist, sublist_filter.
  - simpl. by apply sources_write_entries in Hw.
Qed.

Lemma chapter_block dir chapter chapter_name fout file m :
  chapter_writes dir chapter chapter_name = (fout, None) →
  NoDup (listdir dir) → file ∈ listdir dir →
  Re.FILE_RE_match file = Some m →
  1 ≤ e_section (entry_of chapter file m) →
  ∃ ws1 ws2 text,
    read (files dir) file = inr text ∧
    fout = ws1 ++ headers (previous_section ws1) (entry_of chapter file m)
               ++ listing file text ++ ws2 ∧
    (file ∉ sources ws1) ∧ (file ∉ sources ws2) ∧
    (∃ ws0 w, ws1 = ws0 ++ [w] ∧
       (w = WEndListing ∨ w = WChapter (Py.replace "-" " " chapter_name))).
Proof.
  intros H Hnd Hf Hm Hsec.
  pose proof (chapter_sources _ _ _ _ H) as (es' & _ & _ & Hnd' & Hsrc).
  specialize (Hnd' Hnd). rewrite <- Hsrc in Hnd'. clear es' Hsrc.
  apply chapter_writes_ok in H as (es & body & Hp & Hs & Hw & ->).
  set (e := entry_of chapter file m) in *.
  assert (e ∈ es) as He.
  { rewrite Hp. apply elem_of_matched. eauto. }
  destruct (write_entries_block _ _ _ _ _ Hw He Hsec)
    as (ws1 & ws2 & text & p & Ht & -> & Hprev).
  set (title := WChapter (Py.replace "-" " " chapter_name)) in *.
  exists (title :: ws1), ws2, text.
  assert (previous_section (title :: ws1) = p ∧
          ∃ ws0 w, title :: ws1 = ws0 ++ [w] ∧ (w = WEndListing ∨ w = title))
    as [Hp' Hend].
  { destruct Hprev as [[-> ->]|(ws0 & e' & text' & -> & -> & He')].
    - split; [done|]. exists [], title. eauto.
    - split.
      + rewrite app_comm_cons, previous_section_snoc.
        rewrite Hp in He'. apply elem_of_matched in He' as (f' & m' & _ & Hm' & ->).
        unfold section_of. simpl. by rewrite Hm'.
      + exists (title :: ws0 ++ [WSource (e_file e') text']), WEndListing.
        split; [|by left]. simpl. by rewrite <- app_assoc. }
  rewrite Hp'. split_and!; try done.
  - change (title :: ?l) with ([title] ++ l) in Hnd'.
    rewrite !sources_app, sources_headers in Hnd'. simpl in Hnd'.
    apply NoDup_app in Hnd' as (_ & Hnd' & _). intros Hin.
    change (title :: ws1) with ([title] ++ ws1) in Hin.
    rewrite sources_app in Hin. simpl in Hin.
    apply (Hnd' file Hin). by left.
  - change (title :: ?l) with ([title] ++ l) in Hnd'.
    rewrite !sources_app, sources_headers in Hnd'. simpl in Hnd'.
    apply NoDup_app in Hnd' as (_ & _ & Hnd').
    by apply NoDup_cons_1_1 in Hnd'.
Qed.

Lemma string_app_nil_r s : s +:+ "" = s.
Proof. induction s as [|c s IH]; [done|]. by rewrite string_app_cons, IH. Qed.

Lemma tex_title chapter_name :
  tex [WChapter (Py.replace "-" " " chapter_name)]
  = "\chapter{" +:+ Py.replace "-" " " chapter_name +:+ "}" +:+ nl.
Proof. simpl. by rewrite string_app_nil_r. Qed.

(** * The claims *)

(** ** C1: the example chapter *)

(** C1.  The directory [1-intro] with [1.1_scan.cpp] ("int x;") and
    [1.2.1_probe_sort.cpp] ("int y;"), listed in either order, yields
    [chapter1.tex] with exactly: the title line for "intro", the header
    of section "Array Transformations" and the listing of "int x;",
    then the header of section "Array Queries", the reset of the
    subsection counter, the subsection header "probe sort" and the
    listing of "int y;". *)
Theorem intro_chapter_example :
  SECTION_NAMES !! (1, 1) = Some "Array Transformations" ∧
  SECTION_NAMES !! (1, 2) = Some "Array Queries" ∧
  main [("1-intro",
         Some (ChapterDir ["1.1_scan.cpp"; "1.2.1_probe_sort.cpp"] intro_files))]
       ∅
  = ({[ "chapter1.tex" := intro_tex ]}, None) ∧
  main [("1-intro",
         Some (ChapterDir ["1.2.1_probe_sort.cpp"; "1.1_scan.cpp"] intro_files))]
       ∅
  = ({[ "chapter1.tex" := intro_tex ]}, None).
Proof. split_and!; vm_compute; reflexivity. Qed.

(** ** C2: the sort *)

(** C2.  A section that holds a file without and a file with a
    subsection number: both names match, the comparison of the two
    entries raises, and [gen_chapter] ends with [TypeError] after the
    title line, instead of processing the entry without a subsection
    first. *)
Theorem sorted_mixed_section_raises :
  let names := ["1.1_scan.cpp"; "1.1.1_probe_sort.cpp"] in
  let a := Entry 1 1 None "scan" "1.1_scan.cpp" in
  let b := Entry 1 1 (Some 1) "probe_sort" "1.1.1_probe_sort.cpp" in
  scan 1 names = Some [a; b] ∧
  entry_lt a b = None ∧ entry_lt b a = None ∧
  sorted [a; b] = None ∧ sorted [b; a] = None ∧
  main [("1-intro", Some (ChapterDir names intro_files))] ∅
  = ({[ "chapter1.tex" := "\chapter{intro}" +:+ nl ]}, Some TypeError).
Proof. split_and!; vm_compute; reflexivity. Qed.

(** ** C4 and C10: the chapter number of a file *)

(** C4.  A matching name with another chapter number than the
    directory makes [gen_chapter] fail with [AssertionError]; the file
    then holds the title line only, so nothing was written for any
    entry, and the main loop stops there: the directories after it are
    not visited. *)
Theorem misplaced_file_halts (book : gmap string string) (dir : chapter_dir)
    (chapter : Z) (chapter_name file : string) (m : Re.file_match) :
  file ∈ listdir dir →
  Re.FILE_RE_match file = Some m →
  Py.int (Re.group1 m) ≠ chapter →
  let title := "\chapter{" +:+ Py.replace "-" " " chapter_name +:+ "}" +:+ nl in
  gen_chapter book dir chapter chapter_name
  = (<[chapter_tex chapter := title]> book, Some AssertionError) ∧
  ∀ dirname g1 before after book0,
    Re.DIR_RE_match dirname = Some (g1, chapter_name) →
    Py.int g1 = chapter →
    main before book0 = (book, None) →
    main (before ++ (dirname, Some dir) :: after) book0
    = (<[chapter_tex chapter := title]> book, Some AssertionError).
Proof.
  intros Hf Hm Hne title.
  assert (gen_chapter book dir chapter chapter_name
          = (<[chapter_tex chapter := title]> book, Some AssertionError)) as Hg.
  { unfold gen_chapter, chapter_writes.
    assert (scan chapter (listdir dir) = None) as ->;
      [|by rewrite tex_title].
    apply scan_None. exists file. split; [done|]. by exists m. }
  split; [done|].
  intros dirname g1 before after book0 Hd <- Hb.
  rewrite main_app, Hb. simpl. by rewrite Hd, Hg.
Qed.

Lemma misplaced_file_halts_witness :
  main [("3-bar", Some bar_dir); ("4-baz", Some (ChapterDir [] ∅))] ∅
  = ({[ "chapter3.tex" := "\chapter{bar}" +:+ nl ]}, Some AssertionError).
Proof.
  assert ("2.1_foo.cpp" ∈ listdir bar_dir) as Hf by (by left).
  assert (Py.int (Re.group1 (Re.FileMatch "2" "1" None "foo")) ≠ 3) as Hne
    by (vm_compute; discriminate).
  destruct (misplaced_file_halts ∅ bar_dir 3 "bar" "2.1_foo.cpp"
              (Re.FileMatch "2" "1" None "foo") Hf eq_refl Hne) as [_ H].
  exact (H "3-bar" "3" [] [("4-baz", Some (ChapterDir [] ∅))] ∅
           eq_refl eq_refl eq_refl).
Defined.

(** C10.  When the check of the chapter number fails, the output file
    of the chapter has been opened for writing, which replaces whatever
    file of that name was there, and the title line has been written
    to it. *)
Theorem failed_check_leaves_title (book : gmap string string)
    (dir : chapter_dir) (chapter : Z) (chapter_name : string)
    (book' : gmap string string) :
  gen_chapter book dir chapter chapter_name = (book', Some AssertionError) →
  (∃ file, file ∈ listdir dir ∧ misplaced chapter file) ∧
  book' !! chapter_tex chapter
  = Some ("\chapter{" +:+ Py.replace "-" " " chapter_name +:+ "}" +:+ nl) ∧
  ∀ name, name ≠ chapter_tex chapter → book' !! name = book !! name.
Proof.
  unfold gen_chapter.
  destruct (chapter_writes dir chapter chapter_name) as [fout r] eqn:E.
  intros [= <- ->].
  apply chapter_writes_inv in E as [(Hs & -> & _)|[(_ & _ & _ & [=])|E]].
  - split_and!.
    + by apply scan_None.
    + by rewrite lookup_insert_eq, tex_title.
    + intros name Hn. by rewrite lookup_insert_ne.
  - destruct E as (es & body & _ & _ & Hw & _). exfalso.
    clear -Hw. revert Hw. generalize (@None Z). revert body.
    induction es as [|e es IH]; intros body prev; simpl; [done|].
    destruct (e_section e <? 1); [apply IH|].
    destruct (read (files dir) (e_file e)) as [x|text] eqn:Er.
    { intros [= _ ->]. unfold read in Er.
      by destruct (files dir !! e_file e) as [[|]|]. }
    destruct (write_entries (files dir) (Some (e_section e)) es) as [ws r] eqn:E.
    intros [= _ ->]. by eapply IH.
Qed.

Lemma failed_check_leaves_title_witness :
  ({[ "chapter3.tex" := "\chapter{bar}" +:+ nl ]} : gmap string string)
    !! chapter_tex 3 = Some ("\chapter{bar}" +:+ nl).
Proof.
  exact (proj1 (proj2 (failed_check_leaves_title
    {[ "chapter3.tex" := "an older text" ]} bar_dir 3 "bar"
    {[ "chapter3.tex" := "\chapter{bar}" +:+ nl ]} eq_refl))).
Defined.

(** ** C7: the titles of the sections *)

Lemma chapter_titled dir chapter chapter_name :
  titled chapter (chapter_writes dir chapter chapter_name).1.
Proof.
  destruct (chapter_writes dir chapter chapter_name) as [fout r] eqn:E.
  apply chapter_writes_inv in E as [(_ & -> & _)|[(_ & _ & -> & _)|E]]; simpl.
  - apply titled_cons; [done|apply titled_nil].
  - apply titled_cons; [done|apply titled_nil].
  - destruct E as (es & body & _ & Hs & Hw & ->).
    apply titled_cons; [done|]. eapply titled_write_entries; [|exact Hw].
    apply sorted_Some in Hs as (Hp & _ & _). rewrite Hp.
    apply matched_chapter.
Qed.

(** C7.  Every section header written for chapter [chapter] is followed
    by the counter of its section [s]; its text is the value of the
    table at [(chapter, s)] when the table has that key and the empty
    string when it has not. *)
Theorem section_titles (dir : chapter_dir) (chapter : Z)
    (chapter_name : string) (ws1 ws2 : list write) (t : string) :
  (chapter_writes dir chapter chapter_name).1 = ws1 ++ WSection t :: ws2 →
  ∃ s ws3,
    ws2 = WSetSection s :: ws3 ∧
    write_text (WSection t) = nl +:+ "\section{" +:+ t +:+ "}" +:+ nl ∧
    (∀ v, SECTION_NAMES !! (chapter, s) = Some v → t = v) ∧
    (SECTION_NAMES !! (chapter, s) = None → t = "").
Proof.
  intros H. destruct (chapter_titled dir chapter chapter_name _ _ _ H)
    as (s & ws3 & -> & ->).
  exists s, ws3. unfold section_title. split_and!; try done.
  - by intros v ->.
  - by intros ->.
Qed.

Lemma section_titles_witness :
  ∃ s ws3,
    [WSetSection 1; WBeginListing; WSource "1.1_scan.cpp" "int x;"; WEndListing;
     WSection ""; WSetSection 9; WBeginListing;
     WSource "1.9_extra.cpp" "int w;"; WEndListing]
    = WSetSection s :: ws3 ∧
    write_text (WSection "Array Transformations")
    = nl +:+ "\section{" +:+ "Array Transformations" +:+ "}" +:+ nl ∧
    (∀ v, SECTION_NAMES !! (1, s) = Some v → "Array Transformations" = v) ∧
    (SECTION_NAMES !! (1, s) = None → "Array Transformations" = "").
Proof.
  exact (section_titles
    (ChapterDir ["1.9_extra.cpp"; "1.1_scan.cpp"]
       {[ "1.1_scan.cpp" := Decoded "int x;"; "1.9_extra.cpp" := Decoded "int w;" ]})
    1 "intro" [WChapter "intro"] _ "Array Transformations" eq_refl).
Defined.

(** ** C5: the order of the sections *)

Lemma StronglySorted_weaken {A} (R1 R2 : relation A) (l : list A) :
  (∀ x y, R1 x y → R2 x y) → StronglySorted R1 l → StronglySorted R2 l.
Proof.
  intros HR. induction 1 as [|x l Hl IH Hx]; constructor; [done|].
  eapply Forall_impl; [exact Hx|]. intros y. apply HR.
Qed.

(** C5.  In what [gen_chapter] writes, whichever way it ends, the
    section numbers of the section headers never decrease and are all
    at least 1; no listing is written for a file whose name carries a
    section number below 1; and the loop writes the same with or
    without the entries of a section below 1. *)
Theorem sections_ascending (dir : chapter_dir) (chapter : Z)
    (chapter_name : string) :
  let fout := (chapter_writes dir chapter chapter_name).1 in
  StronglySorted Z.le (section_numbers fout) ∧
  Forall (λ s, 1 ≤ s) (section_numbers fout) ∧
  (∀ file m, Re.FILE_RE_match file = Some m → Py.int (Re.group2 m) < 1 →
     file ∉ sources fout) ∧
  (∀ src prev es,
     write_entries src prev es
     = write_entries src prev (filter (λ e, 1 ≤ e_section e) es)).
Proof.
  intros fout. subst fout.
  split_and!; [| |intros file m Hm Hlt|apply write_entries_filter].
  all: destruct (chapter_writes dir chapter chapter_name) as [fout r] eqn:E.
  all: apply chapter_writes_inv in E as [(_ & -> & _)|[(_ & _ & -> & _)|E]];
    simpl; try by constructor.
  1,2,5: destruct E as (es & body & _ & Hs & Hw & ->);
    apply sorted_Some in Hs as (Hp & Hs & _).
  - eapply section_numbers_write_entries in Hw as [H _].
    + eapply StronglySorted_weaken; [|exact H]. intros x y. simpl. lia.
    + eapply sorted_sections; [|done]. rewrite Hp. apply matched_chapter.
    + done.
  - eapply section_numbers_write_entries in Hw as [_ H].
    + eapply Forall_impl; [exact H|]. by intros s [? _].
    + eapply sorted_sections; [|done]. rewrite Hp. apply matched_chapter.
    + done.
  - intros Hin. change (file ∈ sources ([WChapter (Py.replace "-" " " chapter_name)] ++ body)) in Hin.
    rewrite sources_app in Hin. simpl in Hin.
    destruct (sources_elem_of _ _ _ _ _ _ Hw Hin) as (e & He & Hsec & <-).
    rewrite Hp in He. apply elem_of_matched in He as (f & m' & _ & Hm' & ->).
    simpl in *. rewrite Hm in Hm'. injection Hm' as <-. lia.
  - intros Hin. by apply elem_of_nil in Hin.
  - intros Hin. by apply elem_of_nil in Hin.
Qed.

(** ** C3: the listing of a file *)

Lemma gen_chapter_ok book dir chapter chapter_name book' :
  gen_chapter book dir chapter chapter_name = (book', None) →
  ∃ fout, chapter_writes dir chapter chapter_name = (fout, None) ∧
          book' = <[chapter_tex chapter := tex fout]> book.
Proof.
  unfold gen_chapter.
  destruct (chapter_writes dir chapter chapter_name) as [fout r].
  intros [= <- ->]. eauto.
Qed.

(** C3, as stated, fails: [1.0_notes.cpp] in [1-intro] matches the
    pattern with chapter number 1, the run ends normally, and
    [chapter1.tex] holds the title line only. *)
Lemma section_zero_not_listed :
  Re.FILE_RE_match "1.0_notes.cpp" = Some (Re.FileMatch "1" "0" None "notes") ∧
  Py.int "1" = 1 ∧
  main [("1-intro", Some notes_dir)] ∅
  = ({[ "chapter1.tex" := "\chapter{intro}" +:+ nl ]}, None).
Proof. split_and!; vm_compute; reflexivity. Qed.

(** The text of a file that holds CR LF or CR is not copied verbatim:
    [read()] hands the loop LF in their place. *)
Lemma carriage_returns_not_verbatim :
  main [("1-intro", Some crlf_dir)] ∅
  = ({[ "chapter1.tex" :=
          "\chapter{intro}" +:+ nl +:+
          nl +:+ "\section{Array Transformations}" +:+ nl +:+
          "\setcounter{section}{1}" +:+ nl +:+
          "\begin{lstlisting}" +:+ nl +:+
          "int x;" +:+ nl +:+ "int y;" +:+ nl +:+ "int z;" +:+ nl +:+
          "\end{lstlisting}" +:+ nl ]}, None).
Proof. vm_compute. reflexivity. Qed.

Lemma read_inr src file text :
  read src file = inr text ↔
  ∃ decoded, src !! file = Some (Decoded decoded) ∧
             text = Py.universal_newlines decoded.
Proof.
  unfold read. destruct (src !! file) as [[|decoded]|]; split.
  - done.
  - by intros (? & [=] & _).
  - intros [= <-]. eauto.
  - by intros (? & [= <-] & ->).
  - done.
  - by intros (? & [=] & _).
Qed.

(** A text without CR is what [read()] returns for it. *)
Lemma universal_newlines_no_CR s : no_CR s → Py.universal_newlines s = s.
Proof.
  unfold no_CR, Py.universal_newlines.
  induction s as [|c s IH]; simpl; [done|].
  intros [Hc Hs]%andb_true_iff. apply negb_true_iff in Hc.
  rewrite Hc. simpl. by rewrite IH.
Qed.

(** What [read()] returns holds no CR. *)
Lemma universal_newlines_out s : no_CR (Py.universal_newlines s).
Proof.
  unfold no_CR, Py.universal_newlines. generalize false.
  induction s as [|c s IH]; intros b; simpl; [done|].
  destruct (Ascii.eqb c (ascii_of_nat 13)) eqn:Ec; simpl; [apply IH|].
  destruct (b && Ascii.eqb c (ascii_of_nat 10)); simpl; [apply IH|].
  rewrite Ec. simpl. apply IH.
Qed.

(** C3, amended.  When [gen_chapter] ends normally for chapter
    [chapter], every file of the directory whose name matches the
    pattern with a section number of at least 1 carries the chapter
    number [chapter], and [chapter<chapter>.tex] holds exactly once,
    between the begin and the end marker, the text that [read()]
    returns for the file: its decoded contents with LF for each CR LF
    and each other CR, a text without CR, which is the decoded
    contents themselves when these hold no CR. *)
Theorem listing_exactly_once (book book' : gmap string string)
    (dir : chapter_dir) (chapter : Z) (chapter_name file : string)
    (m : Re.file_match) :
  gen_chapter book dir chapter chapter_name = (book', None) →
  NoDup (listdir dir) →
  file ∈ listdir dir →
  Re.FILE_RE_match file = Some m →
  1 ≤ Py.int (Re.group2 m) →
  Py.int (Re.group1 m) = chapter ∧
  ∃ decoded ws1 ws2,
    files dir !! file = Some (Decoded decoded) ∧
    let text := Py.universal_newlines decoded in
    no_CR text ∧ (no_CR decoded → text = decoded) ∧
    (chapter_writes dir chapter chapter_name).1
    = ws1 ++ [WBeginListing; WSource file text; WEndListing] ++ ws2 ∧
    (file ∉ sources ws1) ∧ (file ∉ sources ws2) ∧
    book' !! chapter_tex chapter
    = Some (tex ws1 +:+ ("\begin{lstlisting}" +:+ nl) +:+ text
              +:+ ("\end{lstlisting}" +:+ nl) +:+ tex ws2).
Proof.
  intros Hg Hnd Hf Hm Hsec.
  apply gen_chapter_ok in Hg as (fout & Hw & ->). split.
  - destruct (decide (Py.int (Re.group1 m) = chapter)) as [|Hne]; [done|].
    assert (scan chapter (listdir dir) = None) as Hs.
    { apply scan_None. exists file. split; [done|]. by exists m. }
    unfold chapter_writes in Hw. by rewrite Hs in Hw.
  - destruct (chapter_block _ _ _ _ _ _ Hw Hnd Hf Hm Hsec)
      as (ws1 & ws2 & text & Ht & -> & H1 & H2 & _).
    apply read_inr in Ht as (decoded & Hd & ->).
    set (hs := headers (previous_section ws1) (entry_of chapter file m)).
    exists decoded, (ws1 ++ hs), ws2. rewrite Hw. simpl.
    split_and!; try done.
    + apply universal_newlines_out.
    + apply universal_newlines_no_CR.
    + by rewrite <- app_assoc.
    + unfold hs. by rewrite sources_app, sources_headers, app_nil_r.
    + rewrite lookup_insert_eq. f_equal.
      by rewrite app_assoc, tex_app.
Qed.

Lemma intro_dir_NoDup : NoDup (listdir intro_dir).
Proof. compute_done. Defined.

Lemma listing_exactly_once_witness :
  Py.int "1" = 1 ∧
  ∃ decoded ws1 ws2,
    files intro_dir !! "1.2.1_probe_sort.cpp" = Some (Decoded decoded) ∧
    let text := Py.universal_newlines decoded in
    no_CR text ∧ (no_CR decoded → text = decoded) ∧
    (chapter_writes intro_dir 1 "intro").1
    = ws1 ++ [WBeginListing; WSource "1.2.1_probe_sort.cpp" text; WEndListing]
          ++ ws2 ∧
    ("1.2.1_probe_sort.cpp" ∉ sources ws1) ∧
    ("1.2.1_probe_sort.cpp" ∉ sources ws2) ∧
    ({[ "chapter1.tex" := intro_tex ]} : gmap string string) !! chapter_tex 1
    = Some (tex ws1 +:+ ("\begin{lstlisting}" +:+ nl) +:+ text
              +:+ ("\end{lstlisting}" +:+ nl) +:+ tex ws2).
Proof.
  assert ("1.2.1_probe_sort.cpp" ∈ listdir intro_dir) as Hf by (by left).
  assert (1 ≤ Py.int "2") as Hsec by (by vm_compute).
  exact (listing_exactly_once ∅ {[ "chapter1.tex" := intro_tex ]} intro_dir 1
           "intro" "1.2.1_probe_sort.cpp"
           (Re.FileMatch "1" "2" (Some "1") "probe_sort")
           eq_refl intro_dir_NoDup Hf eq_refl Hsec).
Defined.

(** ** C6: the subsection headers *)

(** C6, as stated, fails: [1.0.1_probe_sort.cpp] carries the subsection
    number 1, the run ends normally, and no subsection header is
    written. *)
Lemma subsection_of_section_zero_unlisted :
  Re.FILE_RE_match "1.0.1_probe_sort.cpp"
  = Some (Re.FileMatch "1" "0" (Some "1") "probe_sort") ∧
  e_subsection (entry_of 1 "1.0.1_probe_sort.cpp"
                  (Re.FileMatch "1" "0" (Some "1") "probe_sort")) = Some 1 ∧
  chapter_writes appendix_dir 1 "intro" = ([WChapter "intro"], None).
Proof. split_and!; vm_compute; reflexivity. Qed.

Lemma sources_split ws1 ws2 ws3 f1 t1 f2 t2 es :
  sources (ws1 ++ WSource f1 t1 :: ws2 ++ WSource f2 t2 :: ws3) = e_file <$> es →
  ∃ es1 e1 es2 e2 es3,
    es = es1 ++ e1 :: es2 ++ e2 :: es3 ∧ e_file e1 = f1 ∧ e_file e2 = f2.
Proof.
  rewrite sources_app. change (WSource f1 t1 :: ?l) with ([WSource f1 t1] ++ l).
  rewrite !sources_app. change (WSource f2 t2 :: ?l) with ([WSource f2 t2] ++ l).
  rewrite !sources_app. simpl. intros H. symmetry in H.
  apply fmap_app_inv in H as (es1 & r1 & _ & H & ->). symmetry in H.
  apply fmap_cons_inv in H as (e1 & r2 & -> & H & ->). symmetry in H.
  apply fmap_app_inv in H as (es2 & r3 & _ & H & ->). symmetry in H.
  apply fmap_cons_inv in H as (e2 & es3 & -> & _ & ->).
  by exists es1, e1, es2, e2, es3.
Qed.

(** C6, amended.  When [gen_chapter] ends normally: a file of a section
    of at least 1 whose name carries a subsection number other than 0
    has, right before its listing, the subsection header with its name,
    underscores replaced by spaces; a file of a section of at least 1
    whose name carries no subsection number has no subsection header
    before its listing; and of two files of one section with subsection
    numbers, the one listed first has the smaller or the same number. *)
Theorem subsection_headers (dir : chapter_dir) (chapter : Z)
    (chapter_name : string) (fout : list write) :
  chapter_writes dir chapter chapter_name = (fout, None) →
  NoDup (listdir dir) →
  (∀ file m k,
     file ∈ listdir dir → Re.FILE_RE_match file = Some m →
     1 ≤ Py.int (Re.group2 m) →
     e_subsection (entry_of chapter file m) = Some k → k ≠ 0 →
     ∃ ws1 ws2 text,
       fout = ws1 ++ WSubsection (Py.replace "_" " " (Re.group4 m))
                  :: [WBeginListing; WSource file text; WEndListing] ++ ws2 ∧
       (file ∉ sources ws1) ∧ (file ∉ sources ws2)) ∧
  (∀ file m,
     file ∈ listdir dir → Re.FILE_RE_match file = Some m →
     1 ≤ Py.int (Re.group2 m) →
     e_subsection (entry_of chapter file m) = None →
     ∃ ws1 w ws2 text,
       fout = ws1 ++ w :: [WBeginListing; WSource file text; WEndListing] ++ ws2 ∧
       (∀ label, w ≠ WSubsection label) ∧
       (file ∉ sources ws1) ∧ (file ∉ sources ws2)) ∧
  (∀ ws1 ws2 ws3 f1 t1 f2 t2 m1 m2 k1 k2,
     fout = ws1 ++ WSource f1 t1 :: ws2 ++ WSource f2 t2 :: ws3 →
     Re.FILE_RE_match f1 = Some m1 → Re.FILE_RE_match f2 = Some m2 →
     Py.int (Re.group2 m1) = Py.int (Re.group2 m2) →
     e_subsection (entry_of chapter f1 m1) = Some k1 →
     e_subsection (entry_of chapter f2 m2) = Some k2 →
     k1 ≤ k2).
Proof.
  intros Hw Hnd. split_and!.
  - intros file m k Hf Hm Hsec Hk Hk0.
    destruct (chapter_block _ _ _ _ _ _ Hw Hnd Hf Hm Hsec)
      as (ws1 & ws2 & text & Ht & -> & H1 & H2 & _).
    unfold headers. rewrite Hk. simpl.
    destruct (Z.eqb_spec k 0) as [|_]; [done|]. simpl.
    case_bool_decide; simpl.
    + by exists ws1, ws2, text.
    + exists (ws1 ++ [WSection (section_title chapter (Py.int (Re.group2 m)));
                      WSetSection (Py.int (Re.group2 m)); WResetSubsection]),
        ws2, text.
      split_and!; [by rewrite <- app_assoc| |done].
      by rewrite sources_app, app_nil_r.
  - intros file m Hf Hm Hsec Hk.
    destruct (chapter_block _ _ _ _ _ _ Hw Hnd Hf Hm Hsec)
      as (ws1 & ws2 & text & Ht & -> & H1 & H2 & ws0 & w & -> & Hw0).
    unfold headers. rewrite Hk. simpl.
    case_bool_decide; simpl.
    + exists ws0, w, ws2, text. split_and!; try done.
      * by rewrite <- app_assoc.
      * intros label. by destruct Hw0 as [-> | ->].
      * intros Hin. apply H1. rewrite sources_app. apply elem_of_app. by left.
    + exists ((ws0 ++ [w])
              ++ [WSection (section_title chapter (Py.int (Re.group2 m)))]),
        (WSetSection (Py.int (Re.group2 m))), ws2, text.
      split_and!; try done.
      * by rewrite <- !app_assoc.
      * by rewrite sources_app, app_nil_r.
  - intros ws1 ws2 ws3 f1 t1 f2 t2 m1 m2 k1 k2 -> Hm1 Hm2 Hsec Hk1 Hk2.
    destruct (chapter_sources _ _ _ _ Hw) as (es & Hs & Hes & _ & Hsrc).
    apply sources_split in Hsrc as (es1 & e1 & es2 & e2 & es3 & -> & <- & <-).
    assert (e1 = entry_of chapter (e_file e1) m1) as He1.
    { destruct (Hes e1) as [He _].
      { apply elem_of_app. right. by left. }
      apply elem_of_matched in He as (f & m & _ & Hm & ->).
      simpl in *. rewrite Hm in Hm1. by injection Hm1 as ->. }
    assert (e2 = entry_of chapter (e_file e2) m2) as He2.
    { destruct (Hes e2) as [He _].
      { apply elem_of_app. right. right. apply elem_of_app. right. by left. }
      apply elem_of_matched in He as (f & m & _ & Hm & ->).
      simpl in *. rewrite Hm in Hm2. by injection Hm2 as ->. }
    assert (entry_le e1 e2) as Hle.
    { apply StronglySorted_app in Hs as (_ & _ & Hs).
      apply StronglySorted_inv in Hs as [_ Hs].
      rewrite Forall_forall in Hs. apply Hs.
      apply elem_of_app. right. by left. }
    rewrite <- He1 in Hk1. rewrite <- He2 in Hk2.
    apply entry_le_subsection in Hle.
    + rewrite Hk1, Hk2 in Hle. simpl in Hle.
      destruct (Z.compare_spec k1 k2); try lia. done.
    + by rewrite He1, He2.
    + by rewrite He1, He2.
Qed.

Lemma subsection_headers_witness :
  ∃ ws1 ws2 text,
    [WChapter "intro"; WSection "Array Transformations"; WSetSection 1;
     WBeginListing; WSource "1.1_scan.cpp" "int x;"; WEndListing;
     WSection "Array Queries"; WSetSection 2; WResetSubsection;
     WSubsection "probe sort"; WBeginListing;
     WSource "1.2.1_probe_sort.cpp" "int y;"; WEndListing]
    = ws1 ++ WSubsection (Py.replace "_" " " "probe_sort")
          :: [WBeginListing; WSource "1.2.1_probe_sort.cpp" text; WEndListing]
          ++ ws2 ∧
    ("1.2.1_probe_sort.cpp" ∉ sources ws1) ∧
    ("1.2.1_probe_sort.cpp" ∉ sources ws2).
Proof.
  assert ("1.2.1_probe_sort.cpp" ∈ listdir intro_dir) as Hf by (by left).
  assert (1 ≤ Py.int "2") as Hsec by (by vm_compute).
  assert ((1 : Z) ≠ 0) as Hk by lia.
  exact (proj1 (subsection_headers intro_dir 1 "intro" _ eq_refl intro_dir_NoDup)
           "1.2.1_probe_sort.cpp" (Re.FileMatch "1" "2" (Some "1") "probe_sort")
           1 Hf eq_refl Hsec eq_refl Hk).
Defined.

(** ** C9: the change of section *)

(** C9, as stated, fails: [1.1_scan.cpp] opens section 1 and the
    section header is written without a reset of the subsection
    counter. *)
Lemma section_without_subsection_reset :
  chapter_writes scan_dir 1 "intro"
  = ([WChapter "intro"; WSection "Array Transformations"; WSetSection 1;
      WBeginListing; WSource "1.1_scan.cpp" "int x;"; WEndListing], None) ∧
  WResetSubsection ∉ (chapter_writes scan_dir 1 "intro").1.
Proof.
  split; [vm_compute; reflexivity|].
  compute_done.
Qed.

(** The subsection number 0 counts as none at lines 75 and 77: the
    file opens its section without reset and without subsection
    header. *)
Example subsection_zero_no_reset :
  Re.FILE_RE_match "1.1.0_x_y.cpp" = Some (Re.FileMatch "1" "1" (Some "0") "x_y") ∧
  chapter_writes zero_dir 1 "intro"
  = ([WChapter "intro"; WSection "Array Transformations"; WSetSection 1;
      WBeginListing; WSource "1.1.0_x_y.cpp" "int v;"; WEndListing], None).
Proof. split; vm_compute; reflexivity. Qed.

(** C9, amended.  When [gen_chapter] ends normally, the writes for a
    file of a section of at least 1 come right after the title or the
    listing of the file before it.  When its section differs from the
    section of that file (or there is none), they start with the
    section header and the counter of the section, followed by the
    reset of the subsection counter and the subsection header when the
    name carries a subsection number other than 0, and by nothing when
    it carries no subsection number or the subsection number 0.  When
    its section is the same, no section header and no reset is
    written: the writes are the subsection header alone when the name
    carries a subsection number other than 0, and none otherwise. *)
Theorem section_transition (dir : chapter_dir) (chapter : Z)
    (chapter_name : string) (fout : list write) (file : string)
    (m : Re.file_match) :
  chapter_writes dir chapter chapter_name = (fout, None) →
  NoDup (listdir dir) →
  file ∈ listdir dir →
  Re.FILE_RE_match file = Some m →
  1 ≤ Py.int (Re.group2 m) →
  ∃ ws1 hs ws2 text,
    fout = ws1 ++ hs ++ [WBeginListing; WSource file text; WEndListing] ++ ws2 ∧
    (file ∉ sources ws1) ∧ (file ∉ sources ws2) ∧
    (∃ ws0 w, ws1 = ws0 ++ [w] ∧
       (w = WEndListing ∨ w = WChapter (Py.replace "-" " " chapter_name))) ∧
    (previous_section ws1 ≠ Some (Py.int (Re.group2 m)) →
     ∃ subs,
       hs = WSection (section_title chapter (Py.int (Re.group2 m)))
            :: WSetSection (Py.int (Re.group2 m)) :: subs ∧
       (∀ k, e_subsection (entry_of chapter file m) = Some k → k ≠ 0 →
          subs = [WResetSubsection;
                  WSubsection (Py.replace "_" " " (Re.group4 m))]) ∧
       (e_subsection (entry_of chapter file m) = None → subs = []) ∧
       (e_subsection (entry_of chapter file m) = Some 0 → subs = [])) ∧
    (previous_section ws1 = Some (Py.int (Re.group2 m)) →
     (∀ t, WSection t ∉ hs) ∧ (WResetSubsection ∉ hs) ∧
     (∀ k, e_subsection (entry_of chapter file m) = Some k → k ≠ 0 →
        hs = [WSubsection (Py.replace "_" " " (Re.group4 m))]) ∧
     (e_subsection (entry_of chapter file m) = None → hs = []) ∧
     (e_subsection (entry_of chapter file m) = Some 0 → hs = [])).
Proof.
  intros Hw Hnd Hf Hm Hsec.
  destruct (chapter_block _ _ _ _ _ _ Hw Hnd Hf Hm Hsec)
    as (ws1 & ws2 & text & Ht & -> & H1 & H2 & Hend).
  exists ws1, (headers (previous_section ws1) (entry_of chapter file m)),
    ws2, text.
  split_and!; try done.
  - intros Hne. unfold headers. simpl.
    rewrite bool_decide_eq_false_2 by congruence.
    eexists. split; [reflexivity|]. split_and!.
    + intros k -> Hk. simpl. by destruct (Z.eqb_spec k 0).
    + by intros ->.
    + by intros ->.
  - intros Heq. unfold headers. simpl.
    rewrite bool_decide_eq_true_2 by done. simpl. split_and!.
    + intros t. destruct (Py.truthy _); [|apply not_elem_of_nil].
      rewrite list_elem_of_singleton. discriminate.
    + destruct (Py.truthy _); [|apply not_elem_of_nil].
      rewrite list_elem_of_singleton. discriminate.
    + intros k -> Hk. simpl. by destruct (Z.eqb_spec k 0).
    + by intros ->.
    + by intros ->.
Qed.

Lemma section_transition_witness :
  ∃ ws1 hs ws2 text,
    [WChapter "intro"; WSection "Array Transformations"; WSetSection 1;
     WBeginListing; WSource "1.1_scan.cpp" "int x;"; WEndListing;
     WSection "Array Queries"; WSetSection 2; WResetSubsection;
     WSubsection "probe sort"; WBeginListing;
     WSource "1.2.1_probe_sort.cpp" "int y;"; WEndListing]
    = ws1 ++ hs
          ++ [WBeginListing; WSource "1.2.1_probe_sort.cpp" text; WEndListing]
          ++ ws2 ∧
    ("1.2.1_probe_sort.cpp" ∉ sources ws1) ∧
    ("1.2.1_probe_sort.cpp" ∉ sources ws2) ∧
    (∃ ws0 w, ws1 = ws0 ++ [w] ∧
       (w = WEndListing ∨ w = WChapter (Py.replace "-" " " "intro"))) ∧
    (previous_section ws1 ≠ Some (Py.int "2") →
     ∃ subs,
       hs = WSection (section_title 1 (Py.int "2"))
            :: WSetSection (Py.int "2") :: subs ∧
       (∀ k, e_subsection (entry_of 1 "1.2.1_probe_sort.cpp"
                             (Re.FileMatch "1" "2" (Some "1") "probe_sort"))
             = Some k → k ≠ 0 →
          subs = [WResetSubsection;
                  WSubsection (Py.replace "_" " " "probe_sort")]) ∧
       (e_subsection (entry_of 1 "1.2.1_probe_sort.cpp"
                        (Re.FileMatch "1" "2" (Some "1") "probe_sort")) = None →
        subs = []) ∧
       (e_subsection (entry_of 1 "1.2.1_probe_sort.cpp"
                        (Re.FileMatch "1" "2" (Some "1") "probe_sort")) = Some 0 →
        subs = [])) ∧
    (previous_section ws1 = Some (Py.int "2") →
     (∀ t, WSection t ∉ hs) ∧ (WResetSubsection ∉ hs) ∧
     (∀ k, e_subsection (entry_of 1 "1.2.1_probe_sort.cpp"
                           (Re.FileMatch "1" "2" (Some "1") "probe_sort"))
           = Some k → k ≠ 0 →
        hs = [WSubsection (Py.replace "_" " " "probe_sort")]) ∧
     (e_subsection (entry_of 1 "1.2.1_probe_sort.cpp"
                      (Re.FileMatch "1" "2" (Some "1") "probe_sort")) = None →
      hs = []) ∧
     (e_subsection (entry_of 1 "1.2.1_probe_sort.cpp"
                      (Re.FileMatch "1" "2" (Some "1") "probe_sort")) = Some 0 →
      hs = [])).
Proof.
  assert ("1.2.1_probe_sort.cpp" ∈ listdir intro_dir) as Hf by (by left).
  assert (1 ≤ Py.int "2") as Hsec by (by vm_compute).
  exact (section_transition intro_dir 1 "intro" _ "1.2.1_probe_sort.cpp"
           (Re.FileMatch "1" "2" (Some "1") "probe_sort")
           eq_refl intro_dir_NoDup Hf eq_refl Hsec).
Defined.

(** ** C8: two runs *)

(** C8, as stated, fails: two directories of chapter 1 in the root.
    Both orders of the listing of the root end normally, and
    [chapter1.tex] holds the title of the directory that came last. *)
Lemma same_chapter_twice_depends_on_order :
  let a := ("1-arrays", Some (ChapterDir [] ∅)) in
  let b := ("1-basics", Some (ChapterDir [] ∅)) in
  [a; b] ≡ₚ [b; a] ∧
  main [a; b] ∅ = ({[ "chapter1.tex" := "\chapter{basics}" +:+ nl ]}, None) ∧
  main [b; a] ∅ = ({[ "chapter1.tex" := "\chapter{arrays}" +:+ nl ]}, None) ∧
  main [a; b] ∅ ≠ main [b; a] ∅.
Proof.
  split_and!; [apply Permutation_swap|vm_compute; reflexivity..|].
  vm_compute. intros [=].
Qed.

(** C8, amended.  A second run over the same tree, listed in the same
    order, leaves every output file as the first run left it, however
    the first run ended.  [gen_chapter] writes the same and ends the
    same way whatever the order in which the files of the chapter
    directory are listed.  A run that ends normally over a root whose
    chapter directories carry different chapter numbers gives the same
    output files for every other order of the listings of the root and
    of the chapter directories. *)
Theorem generation_repeatable (root : list (string * option chapter_dir))
    (book book' : gmap string string) (r : option exn) :
  main root book = (book', r) →
  main root book' = (book', r) ∧
  (∀ dir1 dir2 chapter chapter_name,
     same_dir dir1 dir2 →
     gen_chapter book dir1 chapter chapter_name
     = gen_chapter book dir2 chapter chapter_name) ∧
  (∀ root2,
     same_tree root root2 → NoDup (chapters root) → r = None →
     main root2 book = (book', None)).
Proof.
  intros H. split_and!.
  - rewrite main_run in H. rewrite (main_run root book').
    by apply (run_idemp _ book).
  - intros dir1 dir2 chapter chapter_name [Hl Hf]. unfold gen_chapter.
    by rewrite (chapter_writes_perm dir1 dir2).
  - intros root2 Ht Hnd ->. rewrite main_run in H. rewrite (main_run root2 book).
    apply run_success in H as [Hok ->].
    apply results_same_tree in Ht.
    rewrite (run_total (results root2) book) by (by rewrite <- Ht).
    f_equal. symmetry. by apply foldl_put_perm.
Qed.

Lemma generation_repeatable_witness :
  main [("4-baz", Some (ChapterDir [] ∅));
        ("1-intro",
         Some (ChapterDir ["1.1_scan.cpp"; "1.2.1_probe_sort.cpp"] intro_files))]
       ∅
  = ({[ "chapter1.tex" := intro_tex; "chapter4.tex" := "\chapter{baz}" +:+ nl ]},
     None).
Proof.
  refine (proj2 (proj2 (generation_repeatable
    [("1-intro", Some intro_dir); ("4-baz", Some (ChapterDir [] ∅))] ∅
    {[ "chapter1.tex" := intro_tex; "chapter4.tex" := "\chapter{baz}" +:+ nl ]}
    None eq_refl)) _ _ _ eq_refl).
  - exists [("4-baz", Some (ChapterDir [] ∅)); ("1-intro", Some intro_dir)].
    split; [apply Permutation_swap|].
    repeat constructor; simpl.
  - compute_done.
Defined.

(** * Further properties of the code *)

(** ** What the regular expressions match *)

Lemma string_app_nil_l s : "" +:+ s = s.
Proof. reflexivity. Qed.

Lemma digits_inv s d r :
  Re.digits s = (d, r) →
  s = d +:+ r ∧ string_forall Py.is_decimal d = true ∧ no_digit_ahead r.
Proof.
  revert d r. induction s as [|c s IH]; intros d r; simpl.
  - by intros [= <- <-].
  - destruct (Py.is_decimal c) eqn:Ec.
    + destruct (Re.digits s) as [d' r'] eqn:E. intros [= <- <-].
      destruct (IH _ _ eq_refl) as (-> & Hd & Hr).
      split_and!; [done| |done]. simpl. by rewrite Ec, Hd.
    + intros [= <- <-]. by split_and!.
Qed.

Lemma digits_app d r :
  string_forall Py.is_decimal d = true → no_digit_ahead r →
  Re.digits (d +:+ r) = (d, r).
Proof.
  intros Hd Hr. induction d as [|c d IH].
  - rewrite string_app_nil_l. destruct r as [|c r]; [done|].
    simpl in *. by rewrite Hr.
  - rewrite string_app_cons. simpl in *.
    apply andb_true_iff in Hd as [-> Hd]. by rewrite (IH Hd).
Qed.

Lemma number_truthy s :
  string_forall Py.is_decimal s = true →
  Py.str_truthy s = true ↔ number s.
Proof.
  intros Hs. unfold number. destruct s; simpl; split; try done.
  by intros [? _].
Qed.

Lemma string_app_ne_r s t : s ≠ "" → s +:+ t ≠ t.
Proof.
  intros Hs H. apply Hs. apply (string_app_inv_r s "" t). by rewrite H.
Qed.

Lemma string_eqb_false s t : s ≠ t → String.eqb s t = false.
Proof. by intros ?%String.eqb_neq. Qed.

Lemma stem_cpp_inv s g :
  Re.stem_cpp s = Some g →
  token g ∧ (s = g +:+ ".cpp" ∨ s = g +:+ ".cpp" +:+ nl).
Proof.
  revert g. induction s as [|c s IH]; intros g; simpl; [done|].
  destruct (Py.is_space c) eqn:Ec; [done|].
  destruct (String.eqb s ".cpp") eqn:E1; simpl.
  { apply String.eqb_eq in E1 as ->. intros [= <-]. split; [|by left].
    split; [done|]. simpl. by rewrite Ec. }
  destruct (String.eqb s (".cpp" +:+ nl)) eqn:E2.
  { apply String.eqb_eq in E2 as ->. intros [= <-]. split; [|by right].
    split; [done|]. simpl. by rewrite Ec. }
  destruct (Re.stem_cpp s) as [g'|]; simpl; [|done]. intros [= <-].
  destruct (IH g' eq_refl) as [[_ Hg] Hs]. split.
  - split; [done|]. simpl. by rewrite Ec, Hg.
  - rewrite !string_app_cons. destruct Hs as [-> | ->]; auto.
Qed.

Lemma stem_cpp_app g t :
  token g → t = ".cpp" ∨ t = ".cpp" +:+ nl → Re.stem_cpp (g +:+ t) = Some g.
Proof.
  intros [Hne Hg] Ht. induction g as [|c g IH]; [done|]. clear Hne.
  simpl in Hg. apply andb_true_iff in Hg as [Hc Hg].
  apply negb_true_iff in Hc. rewrite string_app_cons. simpl. rewrite Hc.
  destruct g as [|c' g].
  - rewrite string_app_nil_l. by destruct Ht as [-> | ->].
  - rewrite IH by done.
    assert (String c' g +:+ t ≠ ".cpp") as N1.
    { intros H. apply (f_equal String.length) in H.
      rewrite string_length_app in H. destruct Ht as [-> | ->]; simpl in H; lia. }
    assert (String c' g +:+ t ≠ ".cpp" +:+ nl) as N2.
    { destruct Ht as [-> | ->]; [|by apply string_app_ne_r].
      intros H. pose proof (f_equal String.length H) as Hl.
      rewrite string_length_app in Hl. simpl in Hl.
      destruct g as [|c'' g]; [|simpl in Hl; lia].
      discriminate H. }
    by rewrite (string_eqb_false _ _ N1), (string_eqb_false _ _ N2).
Qed.

Lemma nonspace_end_inv s g :
  Re.nonspace_end s = Some g → token g ∧ (s = g ∨ s = g +:+ nl).
Proof.
  revert g. induction s as [|c s IH]; intros g; simpl; [done|].
  destruct (Py.is_space c) eqn:Ec; [done|].
  destruct (String.eqb s "") eqn:E1; simpl.
  { apply String.eqb_eq in E1 as ->. intros [= <-]. split; [|by left].
    split; [done|]. simpl. by rewrite Ec. }
  destruct (String.eqb s nl) eqn:E2.
  { apply String.eqb_eq in E2 as ->. intros [= <-]. split; [|by right].
    split; [done|]. simpl. by rewrite Ec. }
  destruct (Re.nonspace_end s) as [g'|]; simpl; [|done]. intros [= <-].
  destruct (IH g' eq_refl) as [[_ Hg] Hs]. split.
  - split; [done|]. simpl. by rewrite Ec, Hg.
  - rewrite !string_app_cons. destruct Hs as [-> | ->]; auto.
Qed.

Lemma nonspace_end_app g t :
  token g → t = "" ∨ t = nl → Re.nonspace_end (g +:+ t) = Some g.
Proof.
  intros [Hne Hg] Ht. induction g as [|c g IH]; [done|]. clear Hne.
  simpl in Hg. apply andb_true_iff in Hg as [Hc Hg].
  apply negb_true_iff in Hc. rewrite string_app_cons. simpl. rewrite Hc.
  destruct g as [|c' g].
  - rewrite string_app_nil_l. by destruct Ht as [-> | ->].
  - rewrite IH by done.
    assert (String c' g +:+ t ≠ "") as N1 by (by rewrite string_app_cons).
    assert (String c' g +:+ t ≠ nl) as N2.
    { destruct Ht as [-> | ->]; [|by apply string_app_ne_r].
      rewrite string_app_nil_r. intros [= -> _]. by simpl in Hg. }
    by rewrite (string_eqb_false _ _ N1), (string_eqb_false _ _ N2).
Qed.

Lemma FILE_RE_match_name g1 g2 g3 g4 t :
  number g1 → number g2 → (∀ g, g3 = Some g → number g) → token g4 →
  t = ".cpp" ∨ t = ".cpp" +:+ nl →
  Re.FILE_RE_match
    (g1 +:+ "." +:+ g2
     +:+ match g3 with Some g => "." +:+ g | None => "" end
     +:+ "_" +:+ g4 +:+ t)
  = Some (Re.FileMatch g1 g2 g3 g4).
Proof.
  intros [N1 D1] [N2 D2] H3 H4 Ht. unfold Re.FILE_RE_match.
  rewrite (string_app_cons "."%char "" (g2 +:+ _)), string_app_nil_l.
  rewrite (digits_app g1) by done.
  rewrite (proj2 (number_truthy g1 D1)) by done.
  destruct g3 as [g3|].
  - destruct (H3 g3 eq_refl) as [N3 D3].
    rewrite (string_app_assoc "." g3), (string_app_cons "."%char "" (g3 +:+ _)),
      string_app_nil_l.
    rewrite (digits_app g2) by done.
    rewrite (proj2 (number_truthy g2 D2)) by done.
    rewrite (string_app_cons "_"%char "" (g4 +:+ _)), string_app_nil_l.
    rewrite (digits_app g3) by done.
    rewrite (proj2 (number_truthy g3 D3)) by done.
    by rewrite (stem_cpp_app g4 t).
  - rewrite string_app_nil_l.
    rewrite (string_app_cons "_"%char "" (g4 +:+ _)), string_app_nil_l.
    rewrite (digits_app g2) by done.
    rewrite (proj2 (number_truthy g2 D2)) by done.
    by rewrite (stem_cpp_app g4 t).
Qed.

Lemma FILE_RE_match_inv file m :
  Re.FILE_RE_match file = Some m →
  file_groups m ∧ (file = file_name m ∨ file = file_name m +:+ nl).
Proof.
  unfold Re.FILE_RE_match.
  destruct (Re.digits file) as [g1 r1] eqn:E1.
  apply digits_inv in E1 as (-> & D1 & _).
  destruct (Py.str_truthy g1) eqn:T1; [|done].
  apply (number_truthy g1 D1) in T1.
  destruct r1 as [|[[] [] [] [] [] [] [] []] r2]; try done.
  destruct (Re.digits r2) as [g2 r3] eqn:E2.
  apply digits_inv in E2 as (-> & D2 & _).
  destruct (Py.str_truthy g2) eqn:T2; [|done].
  apply (number_truthy g2 D2) in T2.
  destruct r3 as [|[[] [] [] [] [] [] [] []] r4]; try done.
  + destruct (Re.stem_cpp r4) as [g4|] eqn:E4; [|done]. simpl.
    intros [= <-]. apply stem_cpp_inv in E4 as [H4 Hr].
    split; [by split_and!|]. unfold file_name. simpl.
    rewrite string_app_nil_l.
    destruct Hr as [-> | ->]; [left|right]; [done|].
    by rewrite !string_app_assoc.
  + destruct (Re.digits r4) as [g3 r5] eqn:E3.
    apply digits_inv in E3 as (-> & D3 & _).
    destruct (Py.str_truthy g3) eqn:T3; [|done].
    apply (number_truthy g3 D3) in T3.
    destruct r5 as [|[[] [] [] [] [] [] [] []] r6]; try done.
    destruct (Re.stem_cpp r6) as [g4|] eqn:E4; [|done]. simpl.
    intros [= <-]. apply stem_cpp_inv in E4 as [H4 Hr].
    split; [split_and!; try done; by intros g [= <-]|].
    unfold file_name. simpl.
    destruct Hr as [-> | ->]; [left|right].
    * by rewrite !string_app_assoc.
    * by rewrite !string_app_assoc.
Qed.

(** X1.  A name matches [FILE_RE] with the groups [m] exactly when it reads
    [<group1>.<group2>[.<group3>]_<group4>.cpp], possibly followed by
    one newline, with numbers for the first three groups and a token
    without white space for the fourth. *)
Theorem FILE_RE_match_iff (file : string) (m : Re.file_match) :
  Re.FILE_RE_match file = Some m ↔
  file_groups m ∧ (file = file_name m ∨ file = file_name m +:+ nl).
Proof.
  split; [apply FILE_RE_match_inv|].
  destruct m as [g1 g2 g3 g4]. unfold file_groups, file_name. simpl.
  intros [(H1 & H2 & H3 & H4) [-> | ->]].
  - apply FILE_RE_match_name; auto.
  - rewrite !string_app_assoc. apply FILE_RE_match_name; auto.
Qed.

Lemma DIR_RE_match_inv file g1 g2 :
  Re.DIR_RE_match file = Some (g1, g2) →
  number g1 ∧ token g2 ∧
  (file = g1 +:+ "-" +:+ g2 ∨ file = g1 +:+ "-" +:+ g2 +:+ nl).
Proof.
  unfold Re.DIR_RE_match.
  destruct (Re.digits file) as [d r] eqn:E1.
  apply digits_inv in E1 as (-> & D1 & _).
  destruct (Py.str_truthy d) eqn:T1; [|done].
  apply (number_truthy d D1) in T1.
  destruct r as [|[[] [] [] [] [] [] [] []] r]; try done.
  destruct (Re.nonspace_end r) as [g|] eqn:E2; [|done]. simpl.
  intros [= <- <-]. apply nonspace_end_inv in E2 as [H2 Hr].
  split_and!; try done. destruct Hr as [-> | ->]; auto.
Qed.

Lemma DIR_RE_match_name g1 g2 t :
  number g1 → token g2 → t = "" ∨ t = nl →
  Re.DIR_RE_match (g1 +:+ "-" +:+ g2 +:+ t) = Some (g1, g2).
Proof.
  intros [N1 D1] H2 Ht. unfold Re.DIR_RE_match.
  rewrite (string_app_cons "-"%char "" (g2 +:+ t)), string_app_nil_l.
  rewrite (digits_app g1) by done.
  rewrite (proj2 (number_truthy g1 D1)) by done.
  by rewrite (nonspace_end_app g2 t).
Qed.

(** X2.  A name matches [DIR_RE] with the groups [g1] and [g2] exactly when
    it reads [<g1>-<g2>], possibly followed by one newline, with a
    number [g1] and a token without white space [g2]. *)
Theorem DIR_RE_match_iff (file g1 g2 : string) :
  Re.DIR_RE_match file = Some (g1, g2) ↔
  number g1 ∧ token g2 ∧
  (file = g1 +:+ "-" +:+ g2 ∨ file = g1 +:+ "-" +:+ g2 +:+ nl).
Proof.
  split; [apply DIR_RE_match_inv|].
  intros (H1 & H2 & [-> | ->]).
  - rewrite <- (string_app_nil_r g2) at 1. apply DIR_RE_match_name; auto.
  - apply DIR_RE_match_name; auto.
Qed.

(** ** The sort of the entries *)

Lemma sorted_from_None_clash l acc :
  StronglySorted entry_le acc → clash_free acc →
  foldl (λ acc x, acc ≫= insert x) (Some acc) l = None →
  ∃ a b, a ∈ acc ++ l ∧ b ∈ acc ++ l ∧ clash a b.
Proof.
  revert acc. induction l as [|x l IH]; intros acc Hs Hf; simpl; [done|].
  destruct (insert x acc) as [acc'|] eqn:E.
  - intros H. pose proof (insert_perm _ _ _ E) as Hp.
    assert (clash_free acc') as Hf'.
    { intros a b Ha Hb Hc.
      assert (∀ y, y ∈ acc → ¬ clash x y) as Hx.
      { intros y Hy Hxy.
        assert (insert x acc = None) by (apply insert_None; eauto). congruence. }
      rewrite Hp in Ha, Hb.
      apply elem_of_cons in Ha as [->|Ha], Hb as [->|Hb].
      - destruct Hc as (_ & _ & [[? [? ?]]|[[? ?] ?]]); congruence.
      - by apply (Hx b).
      - apply clash_sym in Hc. by apply (Hx a).
      - by apply (Hf a b). }
    destruct (IH acc') as (a & b & Ha & Hb & Hc); [by eapply insert_sorted|done..|].
    exists a, b. split_and!; [| |done].
    + apply elem_of_app in Ha as [Ha|Ha].
      * rewrite Hp in Ha. apply elem_of_cons in Ha as [->|Ha].
        -- apply elem_of_app. right. by left.
        -- apply elem_of_app. by left.
      * apply elem_of_app. right. by right.
    + apply elem_of_app in Hb as [Hb|Hb].
      * rewrite Hp in Hb. apply elem_of_cons in Hb as [->|Hb].
        -- apply elem_of_app. right. by left.
        -- apply elem_of_app. by left.
      * apply elem_of_app. right. by right.
  - intros _. apply insert_None in E as (y & Hy & Hc); [|done..].
    exists x, y. split_and!; [| |done].
    + apply elem_of_app. right. by left.
    + apply elem_of_app. by left.
Qed.

(** X3.  The sort raises exactly when two of the entries have one chapter
    and section and only one of them a subsection. *)
Theorem sorted_raises_iff (entries : list entry) :
  sorted entries = None ↔
  ∃ a b, a ∈ entries ∧ b ∈ entries ∧ clash a b.
Proof.
  split.
  - intros H. apply sorted_from_None_clash in H; [done|constructor|].
    intros a b Ha. by apply elem_of_nil in Ha.
  - intros (a & b & Ha & Hb & Hc). apply sorted_None. intros Hf.
    by apply (Hf a b).
Qed.

(** X4.  When the sort returns, it returns the entries in ascending order,
    an absent subsection first, and it returns the same list for every
    order of its input. *)
Theorem sorted_ascending (entries es : list entry) :
  sorted entries = Some es →
  es ≡ₚ entries ∧ StronglySorted entry_le es ∧
  ∀ entries', entries' ≡ₚ entries → sorted entries' = Some es.
Proof.
  intros H. pose proof (sorted_Some _ _ H) as (Hp & Hs & _).
  split_and!; try done. intros entries' Hp'.
  by rewrite (sorted_perm entries' entries).
Qed.

Lemma sorted_ascending_witness :
  let a := Entry 1 2 (Some 1) "probe_sort" "1.2.1_probe_sort.cpp" in
  let b := Entry 1 1 None "scan" "1.1_scan.cpp" in
  let c := Entry 1 2 (Some 10) "heap" "1.2.10_heap.cpp" in
  let d := Entry 1 2 (Some 2) "merge" "1.2.2_merge.cpp" in
  [b; a; d; c] ≡ₚ [c; a; d; b] ∧ StronglySorted entry_le [b; a; d; c] ∧
  ∀ entries', entries' ≡ₚ [c; a; d; b] → sorted entries' = Some [b; a; d; c].
Proof.
  exact (sorted_ascending
    [Entry 1 2 (Some 10) "heap" "1.2.10_heap.cpp";
     Entry 1 2 (Some 1) "probe_sort" "1.2.1_probe_sort.cpp";
     Entry 1 2 (Some 2) "merge" "1.2.2_merge.cpp";
     Entry 1 1 None "scan" "1.1_scan.cpp"] _ eq_refl).
Defined.

(** ** How a chapter ends *)

Lemma listable_entry chapter file m :
  Re.FILE_RE_match file = Some m →
  listable file = true ↔ 1 ≤ e_section (entry_of chapter file m).
Proof.
  intros Hm. unfold listable. rewrite Hm. simpl.
  by rewrite bool_decide_eq_true.
Qed.

Lemma read_error_None dir file :
  read_error dir file = None ↔ ∃ text, read (files dir) file = inr text.
Proof.
  unfold read_error. destruct (read (files dir) file) as [x|text]; split.
  - done.
  - by intros [? [=]].
  - eauto.
  - done.
Qed.

Lemma read_error_Some dir file x :
  read_error dir file = Some x ↔ read (files dir) file = inl x.
Proof.
  unfold read_error. destruct (read (files dir) file) as [x'|text]; split;
    by intros [= <-].
Qed.

(** Reading raises nothing but [OSError] and [UnicodeDecodeError]. *)
Lemma read_error_exn dir file x :
  read_error dir file = Some x → x = OSError ∨ x = UnicodeDecodeError.
Proof.
  unfold read_error, read.
  destruct (files dir !! file) as [[|text]|]; intros [= <-]; auto.
Qed.

(** How the loop over the entries ends: normally when it can read
    every file it lists, and otherwise, right after a begin marker,
    with the exception of the first file it cannot read. *)
Lemma write_entries_outcome src prev es ws r :
  write_entries src prev es = (ws, r) →
  (r = None ∧
   ∀ e, e ∈ es → 1 ≤ e_section e → ∃ text, read src (e_file e) = inr text) ∨
  (∃ x es1 e es2,
     r = Some x ∧ es = es1 ++ e :: es2 ∧ 1 ≤ e_section e ∧
     read src (e_file e) = inl x ∧ (∃ ws', ws = ws' ++ [WBeginListing]) ∧
     ∀ e', e' ∈ es1 → 1 ≤ e_section e' →
           ∃ text, read src (e_file e') = inr text).
Proof.
  revert prev ws r. induction es as [|e es IH]; intros prev ws r; simpl.
  - intros [= <- <-]. left. split; [done|]. intros e He.
    by apply elem_of_nil in He.
  - destruct (Z.ltb_spec (e_section e) 1) as [Hlt|Hge].
    + intros H.
      destruct (IH _ _ _ H)
        as [[-> Hok]|(x & es1 & e0 & es2 & -> & -> & ? & ? & ? & Hok)].
      * left. split; [done|]. intros e' [->|He']%elem_of_cons ?; [lia|eauto].
      * right. exists x, (e :: es1), e0, es2. split_and!; try done.
        intros e' [->|He']%elem_of_cons ?; [lia|eauto].
    + destruct (read src (e_file e)) as [x|text] eqn:Et.
      * intros [= <- <-]. right. exists x, [], e, es.
        split_and!; try done; [by eexists|].
        intros e' He'. by apply elem_of_nil in He'.
      * destruct (write_entries src (Some (e_section e)) es) as [ws' r'] eqn:E.
        intros [= <- <-].
        destruct (IH _ _ _ E)
          as [[-> Hok]|(x & es1 & e0 & es2 & -> & -> & ? & ? & [ws0 ->] & Hok)].
        -- left. split; [done|].
           intros e' [->|He']%elem_of_cons ?; [eauto|eauto].
        -- right. exists x, (e :: es1), e0, es2. split_and!; try done.
           ++ exists (headers prev e
                        ++ [WBeginListing; WSource (e_file e) text; WEndListing]
                        ++ ws0).
              by rewrite <- !app_assoc.
           ++ intros e' [->|He']%elem_of_cons ?; [eauto|eauto].
Qed.


(** The ways [gen_chapter] ends, and what it has written. *)
Lemma chapter_writes_cases dir chapter chapter_name :
  let names := listdir dir in
  let title := WChapter (Py.replace "-" " " chapter_name) in
  let bad := ∃ file, file ∈ names ∧ misplaced chapter file in
  let lost := ∃ file, file ∈ names ∧ unreadable dir file in
  let out := chapter_writes dir chapter chapter_name in
  (out = ([title], Some AssertionError) ∧ bad) ∨
  (out = ([title], Some TypeError) ∧ ¬ bad ∧ mixed chapter names) ∨
  (∃ x file,
     out.2 = Some x ∧ (∃ ws, out.1 = title :: ws ++ [WBeginListing]) ∧
     ¬ bad ∧ ¬ mixed chapter names ∧ first_unreadable dir chapter file x) ∨
  (out.2 = None ∧ ¬ bad ∧ ¬ mixed chapter names ∧ ¬ lost).
Proof.
  cbv zeta.
  set (bad := ∃ file, file ∈ listdir dir ∧ misplaced chapter file).
  set (names := listdir dir).
  destruct (chapter_writes dir chapter chapter_name) as [fout r] eqn:E.
  apply chapter_writes_inv in E
    as [(Hs & -> & ->)|[(Hs & Hso & -> & ->)|(es & body & Hs & Hso & Hw & ->)]].
  - left. split; [done|]. by apply scan_None.
  - right; left. split; [done|].
    assert (¬ bad) as Hb.
    { intros Hb%scan_None. unfold names in Hb. congruence. }
    split; [done|].
    apply sorted_from_None_clash in Hso; [done|constructor|].
    intros a b Ha. by apply elem_of_nil in Ha.
  - right; right.
    assert (¬ bad) as Hb.
    { intros Hb%scan_None. unfold names in Hb. congruence. }
    apply sorted_Some in Hso as (Hp & Hsorted & Hf).
    assert (¬ mixed chapter names) as Hm.
    { intros (a & b & Ha & Hb' & Hc). by apply (Hf a b). }
    assert (∀ e, e ∈ es ↔ ∃ file m, file ∈ names ∧
              Re.FILE_RE_match file = Some m ∧ e = entry_of chapter file m)
      as Hes.
    { intros e. rewrite Hp. apply elem_of_matched. }
    destruct (write_entries_outcome _ _ _ _ _ Hw)
      as [[-> Hok]|(x & es1 & e & es2 & -> & Hsplit & Hsec & Hx & [ws' ->] & Hok)].
    + right. split_and!; try done.
      intros (file & Hf' & Hl & [x Hx]).
      unfold listable in Hl.
      destruct (Re.FILE_RE_match file) as [m|] eqn:Em; [|done].
      apply bool_decide_eq_true in Hl.
      destruct (Hok (entry_of chapter file m)) as [? Ht]; [|done|].
      * apply Hes. eauto.
      * apply read_error_Some in Hx. simpl in Ht. congruence.
    + left. simpl.
      assert (e ∈ es) as He.
      { rewrite Hsplit, elem_of_app, elem_of_cons. auto. }
      apply Hes in He as (file & m & Hf' & Hm' & ->).
      exists x, file. split_and!; try done; [by eexists|].
      split_and!; try done.
      * by apply (listable_entry chapter file m).
      * by apply read_error_Some.
      * intros file' Hf'' Hl' (m1 & m2 & Hm1 & Hm2 & Hlt).
        assert (m2 = m) as -> by congruence.
        set (e' := entry_of chapter file' m1) in *.
        set (e := entry_of chapter file m) in *.
        assert (e' ∈ es) as He' by (apply Hes; eauto).
        apply read_error_None.
        rewrite Hsplit in He', Hsorted.
        apply elem_of_app in He' as [He'|He'].
        -- apply (Hok e' He'). by apply (listable_entry chapter file' m1).
        -- exfalso. apply elem_of_cons in He' as [He'|He'].
           ++ rewrite He' in Hlt.
              by rewrite (proj2 (cmp_eq _ entry_cmp_lawful e e) eq_refl) in Hlt.
           ++ apply StronglySorted_app_1_r, StronglySorted_inv in Hsorted
                as [_ Hall].
              rewrite Forall_forall in Hall. apply (Hall e' He').
              by apply entry_cmp_Gt.
Qed.


(** X6.  What the output file holds when [gen_chapter] fails: the title
    line alone after [AssertionError] and [TypeError], and after
    [OSError] and [UnicodeDecodeError] a text that ends with the begin
    marker of the file that could not be read. *)
Theorem failed_chapter_output (dir : chapter_dir) (chapter : Z)
    (chapter_name : string) (fout : list write) (e : exn) :
  chapter_writes dir chapter chapter_name = (fout, Some e) →
  let title := WChapter (Py.replace "-" " " chapter_name) in
  match e with
  | OSError | UnicodeDecodeError => ∃ ws, fout = title :: ws ++ [WBeginListing]
  | AssertionError | TypeError => fout = [title]
  end.
Proof.
  intros H title.
  pose proof (chapter_writes_cases dir chapter chapter_name) as Hc.
  simpl in Hc. rewrite H in Hc. simpl in Hc.
  destruct Hc
    as [[[= -> ->] _]|[[[= -> ->] _]|[(x & file & [= ->] & Hw & _ & _ & Hx)
                                     |([=] & _)]]];
    try done.
  destruct Hx as (_ & _ & Hx & _).
  by destruct (read_error_exn _ _ _ Hx) as [-> | ->].
Qed.

Lemma failed_chapter_output_witness :
  ∃ ws,
    [WChapter "intro"; WSection "Array Transformations"; WSetSection 1;
     WBeginListing; WSource "1.1_scan.cpp" "int x;"; WEndListing;
     WSection "Array Queries"; WSetSection 2; WResetSubsection;
     WSubsection "probe sort"; WBeginListing]
    = WChapter (Py.replace "-" " " "intro") :: ws ++ [WBeginListing].
Proof.
  exact (failed_chapter_output torn_dir 1 "intro" _ OSError eq_refl).
Defined.

(** A file that does not decode ends the chapter with
    [UnicodeDecodeError], before the loop comes to the file that is
    missing. *)
Example garbled_dir_outcome :
  chapter_writes garbled_dir 1 "intro"
  = ([WChapter "intro"; WSection "Array Transformations"; WSetSection 1;
      WBeginListing], Some UnicodeDecodeError).
Proof. vm_compute. reflexivity. Qed.

(** ** What a chapter lists *)

Lemma scan_filter chapter names :
  scan chapter (filter (λ file, is_Some (Re.FILE_RE_match file)) names)
  = scan chapter names.
Proof.
  induction names as [|file names IH]; [done|].
  rewrite filter_cons. simpl.
  destruct (Re.FILE_RE_match file) as [m|] eqn:Em.
  - rewrite decide_True by eauto. simpl. rewrite Em. by rewrite IH.
  - rewrite decide_False by (by intros [? ?]). done.
Qed.

(** X7.  Names that do not match [FILE_RE] are passed over: [gen_chapter]
    does the same with and without them in the directory. *)
Theorem unmatched_names_ignored (names : list string)
    (texts : gmap string source_file) (chapter : Z) (chapter_name : string) :
  chapter_writes
    (ChapterDir (filter (λ file, is_Some (Re.FILE_RE_match file)) names) texts)
    chapter chapter_name
  = chapter_writes (ChapterDir names texts) chapter chapter_name.
Proof. unfold chapter_writes. simpl. by rewrite scan_filter. Qed.

Lemma matched_listable chapter names :
  e_file <$> filter (λ e, 1 ≤ e_section e) (matched chapter names)
  = filter (λ file, listable file) names.
Proof.
  unfold matched. induction names as [|file names IH]; [done|].
  rewrite (filter_cons (λ file, listable file)).
  assert (listable file
          = match Re.FILE_RE_match file with
            | Some m => bool_decide (1 ≤ Py.int (Re.group2 m))
            | None => false
            end) as Hl by done.
  simpl. destruct (listable file) eqn:El;
    destruct (Re.FILE_RE_match file) as [m|] eqn:Em; simpl; try done.
  - symmetry in Hl. apply bool_decide_eq_true in Hl.
    rewrite filter_cons. rewrite decide_True by done. simpl.
    f_equal. exact IH.
  - symmetry in Hl. apply bool_decide_eq_false in Hl.
    rewrite filter_cons. rewrite decide_False by done. exact IH.
Qed.

(** X8.  When [gen_chapter] ends normally, the files whose text it has
    written are the names of the directory that match with a section of
    at least 1, each as often as the directory lists it, and no other. *)
Theorem listed_files (dir : chapter_dir) (chapter : Z)
    (chapter_name : string) (fout : list write) :
  chapter_writes dir chapter chapter_name = (fout, None) →
  sources fout ≡ₚ filter (λ file, listable file) (listdir dir).
Proof.
  intros H. apply chapter_writes_ok in H as (es & body & Hp & _ & Hw & ->).
  change (sources (WChapter ?t :: body)) with (sources body).
  rewrite (sources_write_entries _ _ _ _ Hw), <- (matched_listable chapter).
  by rewrite Hp.
Qed.

Lemma listed_files_witness :
  sources (chapter_writes intro_dir 1 "intro").1
  ≡ₚ filter (λ file, listable file) (listdir intro_dir).
Proof. exact (listed_files intro_dir 1 "intro" _ eq_refl). Defined.

(** ** The section headers of a chapter *)

Lemma section_numbers_elem_of src prev es ws r s :
  write_entries src prev es = (ws, r) → s ∈ section_numbers ws →
  ∃ e, e ∈ es ∧ e_section e = s ∧ 1 ≤ s.
Proof.
  revert prev ws r. induction es as [|e es IH]; intros prev ws r; simpl.
  - intros [= <- <-] H. by apply elem_of_nil in H.
  - destruct (Z.ltb_spec (e_section e) 1) as [Hlt|Hge].
    + intros H Hs. destruct (IH _ _ _ H Hs) as (e' & ? & ? & ?).
      exists e'. split_and!; try done. by right.
    + assert (s ∈ section_numbers (headers prev e) → e_section e = s) as Hh.
      { rewrite section_numbers_headers. case_bool_decide.
        - intros H'. by apply elem_of_nil in H'.
        - by intros ->%list_elem_of_singleton. }
      destruct (read src (e_file e)) as [x|text].
      * intros [= <- <-]. rewrite section_numbers_app.
        intros [Hs|Hs]%elem_of_app.
        -- exists e. split_and!; [by left|by apply Hh|]. rewrite <- (Hh Hs). done.
        -- by apply elem_of_nil in Hs.
      * destruct (write_entries src (Some (e_section e)) es) as [ws' r'] eqn:E.
        intros [= <- <-]. rewrite section_numbers_app.
        intros [Hs|Hs]%elem_of_app.
        -- exists e. split_and!; [by left|by apply Hh|]. rewrite <- (Hh Hs). done.
        -- simpl in Hs. destruct (IH _ _ _ E Hs) as (e' & ? & ? & ?).
           exists e'. split_and!; try done. by right.
Qed.

Lemma section_numbers_complete src prev es ws e :
  write_entries src prev es = (ws, None) → e ∈ es → 1 ≤ e_section e →
  e_section e ∈ section_numbers ws ∨ prev = Some (e_section e).
Proof.
  revert prev ws. induction es as [|e0 es IH]; intros prev ws; simpl.
  - intros _ H. by apply elem_of_nil in H.
  - destruct (Z.ltb_spec (e_section e0) 1) as [Hlt|Hge].
    + intros H [->|He]%elem_of_cons Hs; [lia|]. by eapply IH.
    + destruct (read src (e_file e0)) as [x0|text]; [done|].
      destruct (write_entries src (Some (e_section e0)) es) as [ws' r'] eqn:E.
      intros [= <- ->] He Hs. rewrite section_numbers_app.
      rewrite section_numbers_headers.
      assert (e_section e0 ∈ (if bool_decide (Some (e_section e0) = prev)
                               then [] else [e_section e0])
              ∨ prev = Some (e_section e0)) as H0.
      { case_bool_decide; [by right|left; by left]. }
      apply elem_of_cons in He as [->|He].
      * destruct H0 as [H0|H0]; [left|by right].
        apply elem_of_app. by left.
      * destruct (IH _ _ E He Hs) as [Hin|[= Heq]].
        -- left. apply elem_of_app. right. exact Hin.
        -- rewrite <- Heq. destruct H0 as [H0|H0]; [left|by right].
           apply elem_of_app. by left.
Qed.

Lemma StronglySorted_lt_NoDup (l : list Z) : StronglySorted Z.lt l → NoDup l.
Proof.
  induction 1 as [|x l Hl IH Hx]; constructor; [|done].
  intros Hin. rewrite Forall_forall in Hx. specialize (Hx x Hin). lia.
Qed.

(** X9.  When [gen_chapter] ends normally, it has written one section
    header for every section number of at least 1 that a matching name
    of the directory carries, and no other section header. *)
Theorem section_headers_once (dir : chapter_dir) (chapter : Z)
    (chapter_name : string) (fout : list write) :
  chapter_writes dir chapter chapter_name = (fout, None) →
  StronglySorted Z.lt (section_numbers fout) ∧
  NoDup (section_numbers fout) ∧
  ∀ s, s ∈ section_numbers fout ↔
       1 ≤ s ∧ ∃ file, file ∈ listdir dir ∧ section_of file = Some s.
Proof.
  intros H. apply chapter_writes_ok in H as (es & body & Hp & Hs & Hw & ->).
  change (section_numbers (WChapter ?t :: body)) with (section_numbers body).
  assert (StronglySorted Z.lt (section_numbers body)) as Hlt.
  { eapply section_numbers_write_entries in Hw as [H _]; [done| |done].
    eapply sorted_sections; [|done]. rewrite Hp. apply matched_chapter. }
  split_and!; [done|by apply StronglySorted_lt_NoDup|]. intros s. split.
  - intros Hin.
    destruct (section_numbers_elem_of _ _ _ _ _ _ Hw Hin) as (e & He & <- & ?).
    split; [done|]. rewrite Hp in He.
    apply elem_of_matched in He as (file & m & Hf & Hm & ->).
    exists file. split; [done|]. unfold section_of. by rewrite Hm.
  - intros [Hge (file & Hf & Hsec)]. unfold section_of in Hsec.
    destruct (Re.FILE_RE_match file) as [m|] eqn:Hm; [|done].
    injection Hsec as <-.
    destruct (section_numbers_complete _ _ _ _ (entry_of chapter file m) Hw)
      as [Hin|[=]]; [|done..].
    rewrite Hp. apply elem_of_matched. eauto.
Qed.

Lemma section_headers_once_witness :
  StronglySorted Z.lt (section_numbers (chapter_writes intro_dir 1 "intro").1) ∧
  NoDup (section_numbers (chapter_writes intro_dir 1 "intro").1) ∧
  ∀ s, s ∈ section_numbers (chapter_writes intro_dir 1 "intro").1 ↔
       1 ≤ s ∧ ∃ file, file ∈ listdir intro_dir ∧ section_of file = Some s.
Proof. exact (section_headers_once intro_dir 1 "intro" _ eq_refl). Defined.

(** ** The listings of a chapter *)

Lemma bracketed_nil : bracketed [].
Proof. intros [|??] ? H; discriminate H. Qed.

Lemma bracketed_cons w ws :
  w ≠ WBeginListing → bracketed ws → bracketed (w :: ws).
Proof.
  intros Hw H [|w1 ws1] ws2 E; simpl in E.
  - injection E as -> _. done.
  - injection E as -> ->. by eapply H.
Qed.

Lemma bracketed_listing file text ws :
  bracketed ws → bracketed (WBeginListing :: WSource file text :: WEndListing :: ws).
Proof.
  intros H [|w1 [|w2 [|w3 ws1]]] ws2 E; simpl in E.
  - injection E as <-. right. eauto.
  - by simplify_eq.
  - by simplify_eq.
  - injection E as _ _ _ E. by eapply H.
Qed.

Lemma bracketed_headers prev e ws :
  bracketed ws → bracketed (headers prev e ++ ws).
Proof.
  intros H. unfold headers.
  case_bool_decide; destruct (Py.truthy (e_subsection e)); simpl;
    repeat (apply bracketed_cons; [done|]); done.
Qed.

Lemma write_entries_bracketed src prev es ws r :
  write_entries src prev es = (ws, r) →
  bracketed ws ∧
  (r = None → ws = [] ∨ ∃ ws', ws = ws' ++ [WEndListing]).
Proof.
  revert prev ws r. induction es as [|e es IH]; intros prev ws r; simpl.
  - intros [= <- <-]. split; [apply bracketed_nil|by left].
  - destruct (e_section e <? 1); [apply IH|].
    destruct (read src (e_file e)) as [x|text].
    + intros [= <- <-]. split; [|done]. apply bracketed_headers.
      intros [|w1 ws1] ws2 E'; simpl in E'.
      * injection E' as <-. by left.
      * injection E' as _ E'. by destruct ws1.
    + destruct (write_entries src (Some (e_section e)) es) as [ws' r'] eqn:E.
      intros [= <- <-]. destruct (IH _ _ _ E) as [Hb Hend]. split.
      * apply bracketed_headers. by apply bracketed_listing.
      * intros Hr. right. destruct (Hend Hr) as [->|[ws0 ->]].
        -- exists (headers prev e ++ [WBeginListing; WSource (e_file e) text]).
           by rewrite <- app_assoc.
        -- exists (headers prev e
                     ++ [WBeginListing; WSource (e_file e) text; WEndListing]
                     ++ ws0).
           by rewrite <- !app_assoc.
Qed.

(** X10.  Whichever way [gen_chapter] ends, every begin marker it has written
    is followed by the text of one file and the end marker, except a
    begin marker that ends the output; and a begin marker ends the
    output only when [gen_chapter] ends with the [OSError] or the
    [UnicodeDecodeError] of a file that could not be read. *)
Theorem listings_bracketed (dir : chapter_dir) (chapter : Z)
    (chapter_name : string) (ws1 ws2 : list write) :
  (chapter_writes dir chapter chapter_name).1 = ws1 ++ WBeginListing :: ws2 →
  (∃ file text ws3, ws2 = WSource file text :: WEndListing :: ws3) ∨
  (ws2 = [] ∧
   ((chapter_writes dir chapter chapter_name).2 = Some OSError ∨
    (chapter_writes dir chapter chapter_name).2 = Some UnicodeDecodeError)).
Proof.
  destruct (chapter_writes dir chapter chapter_name) as [fout r] eqn:E. simpl.
  apply chapter_writes_inv in E as [(_ & -> & _)|[(_ & _ & -> & _)|E]].
  - intros H. destruct ws1 as [|? [|??]]; discriminate H.
  - intros H. destruct ws1 as [|? [|??]]; discriminate H.
  - destruct E as (es & body & _ & _ & Hw & ->). intros H.
    destruct ws1 as [|w ws1]; [discriminate H|]. injection H as _ H.
    destruct (write_entries_bracketed _ _ _ _ _ Hw) as [Hb Hend].
    destruct (Hb _ _ H) as [->|?]; [|by left]. right. split; [done|].
    destruct (write_entries_outcome _ _ _ _ _ Hw)
      as [[-> _]|(x & _ & e & _ & -> & _ & _ & Hx & _)].
    2:{ unfold read in Hx.
        destruct (files dir !! e_file e) as [[|text]|]; [|done|];
          injection Hx as <-; auto. }
    exfalso. destruct (Hend eq_refl) as [->|[ws' ->]].
    + by destruct ws1.
    + apply (f_equal last) in H. rewrite !last_snoc in H. discriminate H.
Qed.

Lemma listings_bracketed_witness :
  (∃ file text ws3,
     [WSource "1.1_scan.cpp" "int x;"; WEndListing;
      WSection "Array Queries"; WSetSection 2; WResetSubsection;
      WSubsection "probe sort"; WBeginListing]
     = WSource file text :: WEndListing :: ws3) ∨
  ([WSource "1.1_scan.cpp" "int x;"; WEndListing;
    WSection "Array Queries"; WSetSection 2; WResetSubsection;
    WSubsection "probe sort"; WBeginListing] = [] ∧
   ((chapter_writes torn_dir 1 "intro").2 = Some OSError ∨
    (chapter_writes torn_dir 1 "intro").2 = Some UnicodeDecodeError)).
Proof.
  exact (listings_bracketed torn_dir 1 "intro"
    [WChapter "intro"; WSection "Array Transformations"; WSetSection 1] _
    eq_refl).
Defined.

(** ** The files the main loop writes *)

Lemma run_lookup_other rs book name :
  (∀ x, x ∈ rs → name ≠ chapter_tex x.1) →
  (run rs book).1 !! name = book !! name.
Proof.
  revert book. induction rs as [|x rs IH]; intros book H; simpl; [done|].
  assert (put book x !! name = book !! name) as Hput.
  { unfold put. apply lookup_insert_ne. intros E. apply (H x); [by left|done]. }
  destruct (x.2.2); simpl; [done|].
  rewrite IH; [done|]. intros y Hy. apply H. by right.
Qed.

Lemma run_lookup_is_Some rs book name :
  is_Some (book !! name) → is_Some ((run rs book).1 !! name).
Proof.
  revert book. induction rs as [|x rs IH]; intros book H; simpl; [done|].
  assert (is_Some (put book x !! name)) as Hput.
  { unfold put. rewrite lookup_insert_is_Some. destruct (decide (chapter_tex x.1 = name)); auto. }
  destruct (x.2.2); simpl; [done|]. by apply IH.
Qed.

(** X11.  The main loop removes no file of the output directory, and it
    leaves every file as it was whose name is not [chapter<N>.tex] for
    the number [N] of a chapter directory of the root. *)
Theorem main_keeps_other_files (root : list (string * option chapter_dir))
    (book : gmap string string) (name : string) :
  (is_Some (book !! name) → is_Some ((main root book).1 !! name)) ∧
  ((∀ c, c ∈ chapters root → name ≠ chapter_tex c) →
   (main root book).1 !! name = book !! name).
Proof.
  rewrite main_run. split.
  - apply run_lookup_is_Some.
  - intros H. apply run_lookup_other. intros x Hx. apply H.
    unfold chapters. apply list_elem_of_fmap. eauto.
Qed.

Lemma foldl_put_is_Some rs book name :
  is_Some (foldl put book rs !! name) ↔
  is_Some (book !! name) ∨ ∃ x, x ∈ rs ∧ name = chapter_tex x.1.
Proof.
  revert book. induction rs as [|x rs IH]; intros book; simpl.
  - split; [auto|]. intros [?|(x & Hx & _)]; [done|]. by apply elem_of_nil in Hx.
  - rewrite IH. unfold put at 1. rewrite lookup_insert_is_Some. split.
    + intros [[<-|[_ ?]]|(y & Hy & ->)].
      * right. exists x. split; [by left|done].
      * by left.
      * right. exists y. split; [by right|done].
    + intros [?|(y & [->|Hy]%elem_of_cons & ->)].
      * left. destruct (decide (chapter_tex x.1 = name)); auto.
      * left. by left.
      * right. eauto.
Qed.

(** X12.  After a run that ends normally, the output directory holds the
    files it held before and one file [chapter<N>.tex] for each chapter
    directory of the root, [N] its chapter number, and no other file. *)
Theorem main_writes_chapter_files (root : list (string * option chapter_dir))
    (book book' : gmap string string) :
  main root book = (book', None) →
  ∀ name, is_Some (book' !! name) ↔
          is_Some (book !! name) ∨ ∃ c, c ∈ chapters root ∧ name = chapter_tex c.
Proof.
  rewrite main_run. intros [_ ->]%run_success name.
  rewrite foldl_put_is_Some. unfold chapters. split.
  - intros [?|(x & Hx & ->)]; [by left|]. right. exists x.1. split; [|done].
    apply list_elem_of_fmap. eauto.
  - intros [?|(c & Hc & ->)]; [by left|]. right.
    apply list_elem_of_fmap in Hc as (x & -> & Hx). eauto.
Qed.

Lemma main_writes_chapter_files_witness :
  is_Some (({[ "chapter1.tex" := intro_tex;
               "chapter4.tex" := "\chapter{baz}" +:+ nl ]}
            : gmap string string) !! "chapter4.tex") ↔
  is_Some ((∅ : gmap string string) !! "chapter4.tex") ∨
  ∃ c, c ∈ chapters [("1-intro", Some intro_dir); ("README", None);
                     ("4-baz", Some (ChapterDir [] ∅))]
       ∧ "chapter4.tex" = chapter_tex c.
Proof.
  exact (main_writes_chapter_files
    [("1-intro", Some intro_dir); ("README", None);
     ("4-baz", Some (ChapterDir [] ∅))] ∅ _ eq_refl "chapter4.tex").
Defined.

Lemma results_filter root :
  results (filter (λ x, is_Some (chapter_result x)) root) = results root.
Proof.
  unfold results. induction root as [|x root IH]; [done|].
  rewrite filter_cons.
  case_decide as H; destruct (chapter_result x) as [y|] eqn:E; simpl;
    rewrite ?E.
  - f_equal. exact IH.
  - by destruct H.
  - destruct H. eauto.
  - exact IH.
Qed.

Lemma chapter_result_is_Some x :
  is_Some (chapter_result x) ↔
  is_Some (x.2) ∧ is_Some (Re.DIR_RE_match x.1).
Proof.
  destruct x as [file node]. unfold chapter_result. simpl.
  destruct node as [dir|]; simpl.
  - destruct (Re.DIR_RE_match file) as [g|]; simpl.
    + split; [intros _; split; eauto | intros _; eauto].
    + split; [by intros [? ?] | by intros [_ [? ?]]].
  - split; [by intros [? ?] | by intros [[? ?] _]].
Qed.

(** X13.  The main loop passes over every entry of the root that is not a
    directory or whose name does not match [DIR_RE]: it does the same
    with and without them. *)
Theorem main_skips_other_entries (root : list (string * option chapter_dir))
    (book : gmap string string) :
  main (filter (λ x, is_Some (x.2) ∧ is_Some (Re.DIR_RE_match x.1)) root) book
  = main root book.
Proof.
  rewrite !main_run. f_equal. rewrite <- (results_filter root). f_equal.
  apply list_filter_iff. intros x. symmetry. apply chapter_result_is_Some.
Qed.

(** X14.  The main loop stops at the first chapter directory for which
    [gen_chapter] raises: the output directory is what the directories
    before it and the failed call leave, whatever comes after it. *)
Theorem main_stops_at_failure
    (before after : list (string * option chapter_dir))
    (file g1 g2 : string) (dir : chapter_dir)
    (book0 book book' : gmap string string) (e : exn) :
  main before book0 = (book, None) →
  Re.DIR_RE_match file = Some (g1, g2) →
  gen_chapter book dir (Py.int g1) g2 = (book', Some e) →
  main (before ++ (file, Some dir) :: after) book0 = (book', Some e).
Proof.
  intros Hb Hd Hg. rewrite main_app, Hb. simpl. by rewrite Hd, Hg.
Qed.

Lemma main_stops_at_failure_witness :
  main ([("0-front", Some (ChapterDir [] ∅))]
          ++ ("1-intro", Some torn_dir)
          :: [("2-heaps", Some (ChapterDir [] ∅))]) ∅
  = ((gen_chapter {[ "chapter0.tex" := "\chapter{front}" +:+ nl ]}
        torn_dir 1 "intro").1,
     Some OSError).
Proof.
  exact (main_stops_at_failure [("0-front", Some (ChapterDir [] ∅))]
    [("2-heaps", Some (ChapterDir [] ∅))] "1-intro" "1" "intro" torn_dir ∅
    {[ "chapter0.tex" := "\chapter{front}" +:+ nl ]} _ OSError
    eq_refl eq_refl eq_refl).
Defined.

(** ** Numbers written and read back *)

Lemma pretty_N_char_digit (d : N) :
  (d < 10)%N →
  Py.is_decimal (pretty_N_char d) = true ∧
  Py.ord (pretty_N_char d) - 48 = Z.of_N d.
Proof.
  intros Hd.
  assert (d = 0 ∨ d = 1 ∨ d = 2 ∨ d = 3 ∨ d = 4 ∨ d = 5 ∨ d = 6 ∨ d = 7
          ∨ d = 8 ∨ d = 9)%N as Hcases by lia.
  repeat destruct Hcases as [-> | Hcases]; try subst d; by compute.
Qed.

Lemma int_acc_pretty_N_go (x : N) (s : string) :
  Py.int_acc 0 (pretty_N_go x s) = Py.int_acc (Z.of_N x) s.
Proof.
  revert s. induction (N.lt_wf_0 x) as [x _ IH]; intros s.
  assert (x = 0 ∨ 0 < x)%N as [-> | Hx] by lia; [done|].
  rewrite pretty_N_go_step by done.
  rewrite IH by (by apply N.div_lt). simpl.
  destruct (pretty_N_char_digit (x `mod` 10)) as [_ ->].
  { by apply N.mod_lt. }
  f_equal. rewrite (N.div_mod x 10) at 3 by done. lia.
Qed.

Lemma pretty_N_go_decimal (x : N) (s : string) :
  string_forall Py.is_decimal (pretty_N_go x s)
  = string_forall Py.is_decimal s.
Proof.
  revert s. induction (N.lt_wf_0 x) as [x _ IH]; intros s.
  assert (x = 0 ∨ 0 < x)%N as [-> | Hx] by lia; [done|].
  rewrite pretty_N_go_step by done.
  rewrite IH by (by apply N.div_lt). simpl.
  destruct (pretty_N_char_digit (x `mod` 10)) as [-> _]; [|done].
  by apply N.mod_lt.
Qed.

Lemma pretty_N_go_ne_empty (x : N) (s : string) :
  s ≠ "" → pretty_N_go x s ≠ "".
Proof.
  revert s. induction (N.lt_wf_0 x) as [x _ IH]; intros s Hs.
  assert (x = 0 ∨ 0 < x)%N as [-> | Hx] by lia; [done|].
  rewrite pretty_N_go_step by done.
  apply IH; [by apply N.div_lt | done].
Qed.

Lemma pretty_number (n : Z) : 0 ≤ n → number (pretty n).
Proof.
  intros Hn. destruct n as [|p|p]; [done| |lia].
  unfold pretty, pretty_Z, pretty, pretty_positive, pretty, pretty_N.
  rewrite decide_False by done. split.
  - rewrite pretty_N_go_step by lia. by apply pretty_N_go_ne_empty.
  - by rewrite pretty_N_go_decimal.
Qed.

Lemma int_pretty (n : Z) : 0 ≤ n → Py.int (pretty n) = n.
Proof.
  intros Hn. destruct n as [|p|p]; [done| |lia].
  unfold pretty, pretty_Z, pretty, pretty_positive, pretty, pretty_N.
  rewrite decide_False by done. unfold Py.int.
  by rewrite int_acc_pretty_N_go.
Qed.

Lemma int_acc_nonneg (s : string) (acc : Z) :
  string_forall Py.is_decimal s = true → 0 ≤ acc → 0 ≤ Py.int_acc acc s.
Proof.
  revert acc. induction s as [|c s IH]; intros acc Hs Hacc; [done|].
  simpl in *. apply andb_true_iff in Hs as [Hc Hs]. apply IH; [done|].
  unfold Py.is_decimal in Hc. lia.
Qed.

(** X15.  A directory of the root named by a chapter number in decimal, a
    hyphen and a title without white space is generated as that
    chapter with that title: the number read from the name is the
    number written into it. *)
Theorem chapter_directory_round_trip (n : Z) (name : string)
    (dir : chapter_dir) (book : gmap string string) :
  0 ≤ n → token name →
  main [(pretty n +:+ "-" +:+ name, Some dir)] book
  = gen_chapter book dir n name.
Proof.
  intros Hn Hname. simpl.
  rewrite <- (string_app_nil_r name) at 1.
  rewrite (DIR_RE_match_name (pretty n) name "")
    by auto using pretty_number.
  rewrite int_pretty by done.
  by destruct (gen_chapter book dir n name) as [book' [e|]].
Qed.

Lemma chapter_directory_round_trip_witness :
  main [("1-intro", Some intro_dir)] ∅ = gen_chapter ∅ intro_dir 1 "intro".
Proof.
  apply (chapter_directory_round_trip 1 "intro" intro_dir ∅); [lia|].
  by split.
Defined.

(** X16.  A file named by the chapter number, a section number and
    possibly a subsection number in decimal, an underscore, a name
    without white space and [.cpp] is scanned as the entry with just
    these numbers and this name. *)
Theorem file_name_round_trip (chapter section : Z) (subsection : option Z)
    (name : string) :
  0 ≤ chapter → 0 ≤ section → (∀ k, subsection = Some k → 0 ≤ k) →
  token name →
  let file :=
    pretty chapter +:+ "." +:+ pretty section
    +:+ match subsection with Some k => "." +:+ pretty k | None => "" end
    +:+ "_" +:+ name +:+ ".cpp" in
  scan chapter [file] = Some [Entry chapter section subsection name file].
Proof.
  intros Hc Hs Hk Hname file.
  assert (Re.FILE_RE_match file
          = Some (Re.FileMatch (pretty chapter) (pretty section)
                    (pretty <$> subsection) name)) as Hm.
  { pose proof (FILE_RE_match_name (pretty chapter) (pretty section)
                  (pretty <$> subsection) name ".cpp") as Hm.
    unfold file. destruct subsection as [k|]; simpl in Hm; apply Hm;
      auto using pretty_number.
    - intros g [= <-]. auto using pretty_number.
    - by intros g. }
  simpl. rewrite Hm. simpl. rewrite int_pretty by done.
  rewrite bool_decide_true by done. simpl. do 2 f_equal.
  unfold entry_of. simpl. rewrite int_pretty by done. f_equal.
  destruct subsection as [k|]; [|done]. simpl.
  rewrite int_pretty by auto.
  destruct (pretty_number k) as [Hne _]; [auto|].
  by destruct (pretty k).
Qed.

Lemma file_name_round_trip_witness :
  scan 1 ["1.2.1_probe_sort.cpp"]
  = Some [Entry 1 2 (Some 1) "probe_sort" "1.2.1_probe_sort.cpp"].
Proof.
  apply (file_name_round_trip 1 2 (Some 1) "probe_sort"); try lia.
  - intros k [= <-]. lia.
  - by split.
Defined.

(** X17.  The numbers of a matched entry are never negative, so the
    entries the loop skips for a section below 1 are those of section
    0; the display name is a non-empty token without white space. *)
Theorem matched_entry_numbers (chapter : Z) (names : list string)
    (e : entry) :
  e ∈ matched chapter names →
  0 ≤ e_section e ∧ (e_section e < 1 → e_section e = 0) ∧
  (∀ k, e_subsection e = Some k → 0 ≤ k) ∧ token (e_name e).
Proof.
  intros He. apply elem_of_matched in He as (file & m & _ & Hm & ->).
  apply FILE_RE_match_inv in Hm as [(_ & [_ H2] & H3 & H4) _].
  assert (0 ≤ Py.int (Re.group2 m)) as Hs.
  { by apply int_acc_nonneg. }
  simpl. split_and!; [done|lia| |done].
  intros k. destruct (Re.group3 m) as [g|]; [|done].
  destruct (Py.str_truthy g); [|done]. intros [= <-].
  destruct (H3 g eq_refl) as [_ Hg]. by apply int_acc_nonneg.
Qed.

Lemma matched_entry_numbers_witness :
  let e := Entry 1 2 (Some 1) "probe_sort" "1.2.1_probe_sort.cpp" in
  e ∈ matched 1 (listdir intro_dir) ∧
  0 ≤ e_section e ∧ (e_section e < 1 → e_section e = 0) ∧
  (∀ k, e_subsection e = Some k → 0 ≤ k) ∧ token (e_name e).
Proof.
  intros e. assert (e ∈ matched 1 (listdir intro_dir)) as He.
  { compute_done. }
  split; [done|].
  apply (matched_entry_numbers 1 (listdir intro_dir) e He).
Defined.
